(** * The SQL course buy button: purchase redirect and analytics flow

    A shallow embedding of [src/components/SQLCourse/BuyButton.tsx].

    The component is a React function component.  Its handlers run on the
    browser's single UI thread, one task at a time, so each handler is
    embedded as a computation in a state monad over a [World]: the part
    of the page the component reads and writes (the query string, the
    session, the analytics global, the results of the two queries, the
    component's own state, the checkout-session mutations) together with
    a log of the calls made to the outside (analytics, toasts, console,
    HTTP, timers, navigation).  Asynchronous continuations (a command
    settling, a callback firing, a user activating the button) are
    separate computations that the environment runs later. *)

From stdpp Require Import gmap strings list.
From Stdlib Require Import ZArith.

Local Open Scope Z_scope.

(** ** Data *)

Definition SQL_COURSE_SLUG : string := "sql".

(** [type CreateCheckoutSessionBody]; the two optional members are
    [None] when the property is left out. *)
Record CreateCheckoutSessionBody := mkBody {
  courseId : string;
  success : option string;
  cancel : option string;
}.

(** [type CreateCheckoutSessionResponse]. *)
Record CreateCheckoutSessionResponse := mkResponse {
  checkoutUrl : string;
}.

(** [variant?: 'main' | 'floating' | 'top-nav']. *)
Inductive Variant := main | floating | top_nav.

(** [props.variant] with its default, [const { variant = 'main' } = props]. *)
Definition variant_of_props (v : option Variant) : Variant :=
  match v with
  | Some v => v
  | None => main
  end.

(** The value a rejected command carries.  [error?.message] reads the
    member through an optional chain, so both the error and its message
    may be missing. *)
Record FetchError := mkError {
  message : option string;
}.

(** Modelled from the spec: the result of the pricing query, whose
    declaration ([queries/billing]) is not part of the sources at hand:
    [{ fullPrice, regionalPrice, isEligibleForDiscount }]. *)
Record CoursePricing := mkPricing {
  fullPrice : Z;
  regionalPrice : Z;
  isEligibleForDiscount : bool;
}.

(** Modelled from the spec: a timestamp is an object, hence truthy
    whatever instant it denotes. *)
Record Timestamp := mkTimestamp {
  epoch_ms : Z;
}.

(** Modelled from the spec: the result of the enrollment query
    ([queries/course-progress]), [{ enrolledAt?: timestamp }]. *)
Record CourseProgress := mkProgress {
  enrolledAt : option Timestamp;
}.

(** The closures handed to the analytics emitter and to [setTimeout].
    The component writes one closure only,
    [() => { window.location.href = data.checkoutUrl }]. *)
Inductive Callback :=
  | Redirect (href : string).

(** The argument of [window.fireEvent]. *)
Record AnalyticsEvent := mkAnalytics {
  action : string;
  category : string;
  label : string;
  callback : option Callback;
}.

(** Calls that leave the component, in the order they are made. *)
Inductive Event :=
  | EvDeleteUrlParam (name : string)
  | EvFireEvent (e : AnalyticsEvent)
  | EvToastLoading (msg : string)
  | EvToastError (msg : string)
  | EvConsoleError (err : option FetchError)
  | EvHttpPost (endpoint : string) (body : CreateCheckoutSessionBody)
  | EvSetTimeout (cb : Callback) (ms : Z)
  | EvLocationHref (href : string).

(** The life of one [mutate] call as the mutation observer reports it. *)
Inductive MutationStatus := Pending | Succeeded | Failed.

Record Mutation := mkMutation {
  request : CreateCheckoutSessionBody;
  status : MutationStatus;
}.

Record World := mkWorld {
  (** the query string of the page address, name to value *)
  url_params : gmap string string;
  (** what [isLoggedIn()] answers *)
  logged_in : bool;
  (** whether [window.gtag] is defined *)
  gtag : bool;
  (** [useQuery(coursePriceOptions(..))]: [isLoading] and [data] *)
  isLoadingCourse : bool;
  coursePricing : option CoursePricing;
  (** [useQuery(courseProgressOptions(..))]: [isLoading] and [data] *)
  isLoadingCourseProgress : bool;
  courseProgress : option CourseProgress;
  (** [useState(false)] *)
  isLoginPopupOpen : bool;
  (** every [createCheckoutSession] call so far, oldest first *)
  mutations : list Mutation;
  (** calls to the outside, oldest first *)
  log : list Event;
}.

Definition set_url_params (f : gmap string string → gmap string string)
    (w : World) : World :=
  mkWorld (f (url_params w)) (logged_in w) (gtag w)
    (isLoadingCourse w) (coursePricing w)
    (isLoadingCourseProgress w) (courseProgress w)
    (isLoginPopupOpen w) (mutations w) (log w).

Definition set_isLoginPopupOpen (b : bool) (w : World) : World :=
  mkWorld (url_params w) (logged_in w) (gtag w)
    (isLoadingCourse w) (coursePricing w)
    (isLoadingCourseProgress w) (courseProgress w)
    b (mutations w) (log w).

Definition set_mutations (f : list Mutation → list Mutation)
    (w : World) : World :=
  mkWorld (url_params w) (logged_in w) (gtag w)
    (isLoadingCourse w) (coursePricing w)
    (isLoadingCourseProgress w) (courseProgress w)
    (isLoginPopupOpen w) (f (mutations w)) (log w).

Definition set_log (f : list Event → list Event) (w : World) : World :=
  mkWorld (url_params w) (logged_in w) (gtag w)
    (isLoadingCourse w) (coursePricing w)
    (isLoadingCourseProgress w) (courseProgress w)
    (isLoginPopupOpen w) (mutations w) (f (log w)).

(** ** The monad of handlers *)

Definition Eff (A : Type) : Type := World → A * World.

#[global] Instance Eff_ret : MRet Eff := λ A a w, (a, w).
#[global] Instance Eff_bind : MBind Eff :=
  λ A B k m w, let '(a, w') := m w in k a w'.

(** The world a handler leaves behind. *)
Definition exec {A} (m : Eff A) (w : World) : World := snd (m w).

Definition skip : Eff unit := mret tt.

Definition emit (e : Event) : Eff unit :=
  λ w, (tt, set_log (λ l, l ++ [e]) w).

(** What a handler added to the log. *)
Definition emitted {A} (m : Eff A) (w : World) : list Event :=
  drop (length (log w)) (log (exec m w)).

(** ** JavaScript truthiness of the values the component tests *)

(** [!param] for [param : string | undefined]: undefined and the empty
    string are falsy. *)
Definition truthy_string (v : option string) : bool :=
  match v with
  | Some s => negb (String.eqb s "")
  | None => false
  end.

(** [v === '1'] for [v : string | undefined]. *)
Definition strict_eq_string (v : option string) (s : string) : bool :=
  match v with
  | Some s' => String.eqb s' s
  | None => false
  end.

(** [a || b] on strings: the left operand when it is truthy. *)
Definition or_else (v : option string) (d : string) : string :=
  match v with
  | Some s => if String.eqb s "" then d else s
  | None => d
  end.

(** ** Collaborators *)

(** Modelled from the spec: [getUrlParams] of [lib/browser], which is
    not part of the sources at hand: "read current parameters as a
    mapping from name to string". *)
Definition getUrlParams : Eff (gmap string string) :=
  λ w, (url_params w, w).

(** Modelled from the spec: [deleteUrlParam] of [lib/browser], which is
    not part of the sources at hand: "delete a named parameter from the
    current address without a full page reload". *)
Definition deleteUrlParam (name : string) : Eff unit :=
  λ w, emit (EvDeleteUrlParam name) (set_url_params (delete name) w).

(** Modelled from the spec: [isLoggedIn] of [lib/jwt], which is not part
    of the sources at hand: "a pure predicate answering whether the
    current user is authenticated, consulted synchronously". *)
Definition isLoggedIn : Eff bool :=
  λ w, (logged_in w, w).

(** [window.gtag], tested for presence only. *)
Definition window_gtag : Eff bool :=
  λ w, (gtag w, w).

(** Modelled from the spec: the analytics emitter [window.fireEvent],
    "accepts { action, category, label, callback? } and invokes callback
    on completion".  The call is logged; its callback is run by the
    environment, if ever, through [run_callback]. *)
Definition fireEvent (e : AnalyticsEvent) : Eff unit :=
  emit (EvFireEvent e).

Definition setTimeout (cb : Callback) (ms : Z) : Eff unit :=
  emit (EvSetTimeout cb ms).

(** [window.location.href = href]. *)
Definition set_location_href (href : string) : Eff unit :=
  emit (EvLocationHref href).

Definition toast_loading (msg : string) : Eff unit :=
  emit (EvToastLoading msg).

Definition toast_error (msg : string) : Eff unit :=
  emit (EvToastError msg).

Definition console_error (err : option FetchError) : Eff unit :=
  emit (EvConsoleError err).

Definition setIsLoginPopupOpen (b : bool) : Eff unit :=
  λ w, (tt, set_isLoginPopupOpen b w).

Definition run_callback (cb : Callback) : Eff unit :=
  match cb with
  | Redirect href => set_location_href href
  end.

(** [httpPost(endpoint, body)]: the request leaves the page. *)
Definition httpPost (endpoint : string) (body : CreateCheckoutSessionBody)
    : Eff unit :=
  emit (EvHttpPost endpoint body).

(** ** The checkout-session mutation *)

(** [isPending] of the mutation observer: the state of the latest
    [mutate] call. *)
Definition isCreatingCheckoutSession (w : World) : bool :=
  match last (mutations w) with
  | Some m =>
      match status m with
      | Pending => true
      | _ => false
      end
  | None => false
  end.

Definition is_pending (m : Mutation) : bool :=
  match status m with
  | Pending => true
  | _ => false
  end.

(** The checkout-session commands that have been issued and have not
    settled yet. *)
Fixpoint pending_count (ms : list Mutation) : nat :=
  match ms with
  | [] => 0%nat
  | m :: ms => ((if is_pending m then 1 else 0) + pending_count ms)%nat
  end.

(** [onMutate]. *)
Definition onMutate : Eff unit :=
  toast_loading "Creating checkout session...".

(** [mutationFn]. *)
Definition mutationFn (body : CreateCheckoutSessionBody) : Eff unit :=
  httpPost "/v1-create-checkout-session" body.

Definition start_mutation (body : CreateCheckoutSessionBody) : Eff unit :=
  λ w, (tt, set_mutations (λ ms, ms ++ [mkMutation body Pending]) w).

(** [createCheckoutSession(body)], the [mutate] of [useMutation]: the
    observer takes a fresh mutation in the pending state, [onMutate]
    runs and the request is sent. *)
Definition createCheckoutSession (body : CreateCheckoutSessionBody)
    : Eff unit :=
  start_mutation body;;
  onMutate;;
  mutationFn body.

(** [onSuccess]. *)
Definition onSuccess (data : CreateCheckoutSessionResponse) : Eff unit :=
  g ← window_gtag;
  if negb g then
    set_location_href (checkoutUrl data)
  else
    fireEvent
      {| action := SQL_COURSE_SLUG +:+ "_begin_checkout";
         category := "course";
         label := SQL_COURSE_SLUG +:+ " Course Checkout Started";
         callback := Some (Redirect (checkoutUrl data)) |};;
    setTimeout (Redirect (checkoutUrl data)) 3000.

(** [onError]. *)
Definition onError (error : option FetchError) : Eff unit :=
  console_error error;;
  toast_error
    (or_else (error ≫= message) "Failed to create checkout session").

(** What the server answers to one command. *)
Inductive Outcome :=
  | Resolved (data : CreateCheckoutSessionResponse)
  | Rejected (error : option FetchError).

Definition settled_status (o : Outcome) : MutationStatus :=
  match o with
  | Resolved _ => Succeeded
  | Rejected _ => Failed
  end.

(** The handler that [useMutation] was given for the outcome. *)
Definition run_handler (o : Outcome) : Eff unit :=
  match o with
  | Resolved data => onSuccess data
  | Rejected error => onError error
  end.

Definition mark_settled (i : nat) (m : Mutation) (o : Outcome) : Eff unit :=
  λ w, (tt, set_mutations
              <[i := mkMutation (request m) (settled_status o)]> w).

(** The [i]-th command settles: the matching handler runs and the
    mutation leaves the pending state.  A command that was never issued
    or has settled already cannot settle. *)
Definition settle (i : nat) (o : Outcome) : Eff unit :=
  λ w,
    match mutations w !! i with
    | Some m =>
        if is_pending m then (run_handler o;; mark_settled i m o) w
        else (tt, w)
    | None => (tt, w)
    end.

(** ** The component *)

Section BuyButton.

(** The two parameter names come from [lib/jwt] and the base address
    of the course application from the build environment; none is part
    of the sources at hand. *)
Variable COURSE_PURCHASE_PARAM : string.
Variable COURSE_PURCHASE_SUCCESS_PARAM : string.
Variable PUBLIC_COURSE_APP_URL : string.

Definition success_path : string :=
  "/courses/" +:+ SQL_COURSE_SLUG +:+ "?" +:+
  COURSE_PURCHASE_SUCCESS_PARAM +:+ "=1".

Definition cancel_path : string :=
  "/courses/" +:+ SQL_COURSE_SLUG +:+ "?" +:+
  COURSE_PURCHASE_SUCCESS_PARAM +:+ "=0".

(** [function initPurchase()]. *)
Definition initPurchase : Eff unit :=
  l ← isLoggedIn;
  if negb l then skip
  else
    createCheckoutSession
      {| courseId := SQL_COURSE_SLUG;
         success := Some success_path;
         cancel := Some cancel_path |}.

(** The first [useEffect(.., [])]. *)
Definition purchase_intent_effect : Eff unit :=
  urlParams ← getUrlParams;
  let shouldTriggerPurchase :=
    strict_eq_string (urlParams !! COURSE_PURCHASE_PARAM) "1" in
  if shouldTriggerPurchase then
    deleteUrlParam COURSE_PURCHASE_PARAM;;
    initPurchase
  else skip.

Definition purchase_complete : AnalyticsEvent :=
  {| action := SQL_COURSE_SLUG +:+ "_purchase_complete";
     category := "course";
     label := SQL_COURSE_SLUG +:+ " Course Purchase Completed";
     callback := None |}.

Definition purchase_canceled : AnalyticsEvent :=
  {| action := SQL_COURSE_SLUG +:+ "_purchase_canceled";
     category := "course";
     label := SQL_COURSE_SLUG +:+ " Course Purchase Canceled";
     callback := None |}.

(** The second [useEffect(.., [])]. *)
Definition purchase_outcome_effect : Eff unit :=
  urlParams ← getUrlParams;
  let param := urlParams !! COURSE_PURCHASE_SUCCESS_PARAM in
  if negb (truthy_string param) then skip
  else
    let success := strict_eq_string param "1" in
    (if success then fireEvent purchase_complete
     else fireEvent purchase_canceled);;
    deleteUrlParam COURSE_PURCHASE_SUCCESS_PARAM.

(** Mounting runs the effects with an empty dependency list once, in
    the order they are declared. *)
Definition mount : Eff unit :=
  purchase_intent_effect;;
  purchase_outcome_effect.

(** [isLoadingCourse || !coursePricing || isLoadingCourseProgress]. *)
Definition isLoadingPricing (w : World) : bool :=
  isLoadingCourse w || negb (bool_decide (is_Some (coursePricing w)))
  || isLoadingCourseProgress w.

(** [!!courseProgress?.enrolledAt]. *)
Definition hasEnrolled (w : World) : bool :=
  bool_decide (is_Some (courseProgress w ≫= enrolledAt)).

Definition isAlreadyEnrolled (w : World) : bool := hasEnrolled w.

(** [function onBuyClick()]. *)
Definition onBuyClick : Eff unit :=
  l ← isLoggedIn;
  if negb l then setIsLoginPopupOpen true
  else
    λ w,
      if hasEnrolled w then
        set_location_href
          (PUBLIC_COURSE_APP_URL +:+ "/" +:+ SQL_COURSE_SLUG) w
      else initPurchase w.

(** *** What is rendered

    Of the element tree the component returns, the login popup, the
    button with its [disabled] attribute, whether its class list holds
    [pointer-events-none] (it comes with the striped loader) and its
    caption, and the line under the button. *)

Inductive Caption :=
  | BlankCaption
  | StartLearning
  | BuyNowFor (struck : option Z) (price : option Z)
  | PurchaseCourse
  | BuyNow (price : option Z).

Record Button := mkButton {
  disabled : bool;
  pointer_events_none : bool;
  caption : Caption;
}.

Record View := mkView {
  login_popup : bool;
  button : Button;
  lifetime_access_line : bool;
}.

(** [isLoginPopupOpen && <CourseLoginPopup .. />]. *)
Definition courseLoginPopup (w : World) : bool := isLoginPopupOpen w.

Definition render (variant : Variant) (w : World) : View :=
  match variant with
  | main =>
      {| login_popup := courseLoginPopup w;
         button :=
           {| disabled := isLoadingPricing w;
              pointer_events_none :=
                isLoadingPricing w || isCreatingCheckoutSession w;
              caption :=
                if isLoadingPricing w then BlankCaption
                else if isAlreadyEnrolled w then StartLearning
                else if bool_decide
                          ((isEligibleForDiscount <$> coursePricing w)
                           = Some true)
                then BuyNowFor (fullPrice <$> coursePricing w)
                               (regionalPrice <$> coursePricing w)
                else BuyNowFor None (regionalPrice <$> coursePricing w) |};
         lifetime_access_line := negb (isLoadingPricing w) |}
  | top_nav =>
      {| login_popup := false;
         button :=
           {| disabled := isLoadingPricing w;
              pointer_events_none := false;
              caption := PurchaseCourse |};
         lifetime_access_line := false |}
  | floating =>
      {| login_popup := courseLoginPopup w;
         button :=
           {| disabled := isLoadingPricing w;
              pointer_events_none :=
                isLoadingPricing w || isCreatingCheckoutSession w;
              caption :=
                if isLoadingPricing w then BlankCaption
                else if isAlreadyEnrolled w then StartLearning
                else BuyNow (regionalPrice <$> coursePricing w) |};
         lifetime_access_line :=
           negb (isLoadingPricing w) && negb (isAlreadyEnrolled w) |}
  end.

(** How a user activates a button: with a pointer (mouse, touch) or
    from the keyboard while it has focus. *)
Inductive Activation := ByPointer | ByKeyboard.

(** The browser's part in a click: a disabled button fires no click,
    and an element with [pointer-events: none] is not the target of
    pointer input (keyboard activation is not affected).  Otherwise
    [onClick={onBuyClick}] runs. *)
Definition activate (variant : Variant) (how : Activation) : Eff unit :=
  λ w,
    let b := button (render variant w) in
    if disabled b then skip w
    else
      match how with
      | ByPointer => if pointer_events_none b then skip w else onBuyClick w
      | ByKeyboard => onBuyClick w
      end.

(** *** The life of a mounted instance

    After the mount the environment drives the instance: the user
    activates the button, or a command that was issued settles. *)

Inductive Step :=
  | UserActivates (how : Activation)
  | Settles (i : nat) (o : Outcome).

Definition step (variant : Variant) (s : Step) : Eff unit :=
  match s with
  | UserActivates how => activate variant how
  | Settles i o => settle i o
  end.

Fixpoint steps (variant : Variant) (ss : list Step) : Eff unit :=
  match ss with
  | [] => skip
  | s :: ss => step variant s;; steps variant ss
  end.

Definition by_pointer_only (ss : list Step) : Prop :=
  ∀ how, UserActivates how ∈ ss → how = ByPointer.

(** No command is pending but, possibly, the latest one. *)
Definition single_flight (w : World) : Prop :=
  pending_count (mutations w)
  = (if isCreatingCheckoutSession w then 1 else 0)%nat.

End BuyButton.


(** ** Counting calls in the log *)

Definition is_deleteUrlParam (name : string) (e : Event) : bool :=
  match e with
  | EvDeleteUrlParam n => String.eqb n name
  | _ => false
  end.

Definition is_fireEvent (e : Event) : bool :=
  match e with
  | EvFireEvent _ => true
  | _ => false
  end.

Definition is_httpPost (e : Event) : bool :=
  match e with
  | EvHttpPost _ _ => true
  | _ => false
  end.

Definition is_location_href (e : Event) : bool :=
  match e with
  | EvLocationHref _ => true
  | _ => false
  end.

Definition is_setTimeout (e : Event) : bool :=
  match e with
  | EvSetTimeout _ _ => true
  | _ => false
  end.

(** The analytics events among the calls, in order. *)
Fixpoint analytics_of (l : list Event) : list AnalyticsEvent :=
  match l with
  | [] => []
  | EvFireEvent e :: l => e :: analytics_of l
  | _ :: l => analytics_of l
  end.

Fixpoint count_events (p : Event → bool) (l : list Event) : nat :=
  match l with
  | [] => 0%nat
  | e :: l => ((if p e then 1 else 0) + count_events p l)%nat
  end.

(** ** A whole visit

    What can happen to an instance between its mount and the moment the
    page is left: besides activations of the button and settlements of
    commands, the login popup can be closed and a callback that the
    component handed out can be run. *)

(** [onClose={() => setIsLoginPopupOpen(false)}]. *)
Definition onClose : Eff unit := setIsLoginPopupOpen false.

Definition callback_eqb (a b : Callback) : bool :=
  match a, b with
  | Redirect x, Redirect y => String.eqb x y
  end.

(** Whether a call handed the callback to the outside: as the
    [callback] of an analytics event or as the function of a timer. *)
Definition hands_out (cb : Callback) (e : Event) : bool :=
  match e with
  | EvFireEvent a =>
      match callback a with
      | Some cb' => callback_eqb cb' cb
      | None => false
      end
  | EvSetTimeout cb' _ => callback_eqb cb' cb
  | _ => false
  end.

Definition handed_out (cb : Callback) (l : list Event) : bool :=
  existsb (hands_out cb) l.

(** The outside runs a callback only if it was given it. *)
Definition fire_callback (cb : Callback) : Eff unit :=
  λ w, if handed_out cb (log w) then run_callback cb w else skip w.

Inductive Task :=
  | Activates (how : Activation)
  | CommandSettles (i : nat) (o : Outcome)
  | PopupCloses
  | CallbackFires (cb : Callback).

(** The checkout addresses the server answers with in a visit. *)
Fixpoint checkout_urls (ts : list Task) : list string :=
  match ts with
  | [] => []
  | CommandSettles _ (Resolved data) :: ts => checkoutUrl data :: checkout_urls ts
  | _ :: ts => checkout_urls ts
  end.

Definition pointer_tasks_only (ts : list Task) : Prop :=
  ∀ how, Activates how ∈ ts → how = ByPointer.

Section Visit.

Variable COURSE_PURCHASE_PARAM : string.
Variable COURSE_PURCHASE_SUCCESS_PARAM : string.
Variable PUBLIC_COURSE_APP_URL : string.

(** The popup can be closed where it is on screen. *)
Definition close_popup (variant : Variant) : Eff unit :=
  λ w, if login_popup (render variant w) then onClose w else skip w.

Definition run_task (variant : Variant) (t : Task) : Eff unit :=
  match t with
  | Activates how =>
      activate COURSE_PURCHASE_SUCCESS_PARAM PUBLIC_COURSE_APP_URL
        variant how
  | CommandSettles i o => settle i o
  | PopupCloses => close_popup variant
  | CallbackFires cb => fire_callback cb
  end.

Fixpoint run_tasks (variant : Variant) (ts : list Task) : Eff unit :=
  match ts with
  | [] => skip
  | t :: ts => run_task variant t;; run_tasks variant ts
  end.

(** A visit: the mount, then the tasks in the order they happen. *)
Definition visit (variant : Variant) (ts : list Task) : Eff unit :=
  mount COURSE_PURCHASE_PARAM COURSE_PURCHASE_SUCCESS_PARAM;;
  run_tasks variant ts.

(** The address of the course in the course application. *)
Definition course_app_href : string :=
  PUBLIC_COURSE_APP_URL +:+ "/" +:+ SQL_COURSE_SLUG.

(** The argument [initPurchase] gives to [createCheckoutSession]. *)
Definition checkout_request : CreateCheckoutSessionBody :=
  {| courseId := SQL_COURSE_SLUG;
     success := Some (success_path COURSE_PURCHASE_SUCCESS_PARAM);
     cancel := Some (cancel_path COURSE_PURCHASE_SUCCESS_PARAM) |}.

End Visit.

(** The status of a command, for counting. *)
Definition is_failed (m : Mutation) : bool :=
  match status m with
  | Failed => true
  | _ => false
  end.

Definition is_toast_loading (e : Event) : bool :=
  match e with
  | EvToastLoading _ => true
  | _ => false
  end.

Definition is_toast_error (e : Event) : bool :=
  match e with
  | EvToastError _ => true
  | _ => false
  end.

Fixpoint count_mutations (p : Mutation → bool) (ms : list Mutation) : nat :=
  match ms with
  | [] => 0%nat
  | m :: ms => ((if p m then 1 else 0) + count_mutations p ms)%nat
  end.

(** Where a call sends the browser, now or later: the address assigned
    to the location, or the one a callback it hands out will assign. *)
Definition destinations (e : Event) : list string :=
  match e with
  | EvLocationHref href => [href]
  | EvSetTimeout (Redirect href) _ => [href]
  | EvFireEvent a =>
      match callback a with
      | Some (Redirect href) => [href]
      | None => []
      end
  | _ => []
  end.

(** ** Sample pages

    A freshly mounted instance on a page with the given query string:
    both queries have answered, the user is not enrolled, no command
    has been issued and nothing has been logged. *)

Definition sample_pricing : CoursePricing :=
  {| fullPrice := 99; regionalPrice := 59; isEligibleForDiscount := true |}.

Definition fresh_page (params : list (string * string))
    (authenticated analytics : bool) : World :=
  {| url_params := list_to_map params;
     logged_in := authenticated;
     gtag := analytics;
     isLoadingCourse := false;
     coursePricing := Some sample_pricing;
     isLoadingCourseProgress := false;
     courseProgress := Some {| enrolledAt := None |};
     isLoginPopupOpen := false;
     mutations := [];
     log := [] |}.

(** The same page for a user who is enrolled already. *)
Definition enrolled_page (params : list (string * string)) : World :=
  {| url_params := list_to_map params;
     logged_in := true;
     gtag := true;
     isLoadingCourse := false;
     coursePricing := Some sample_pricing;
     isLoadingCourseProgress := false;
     courseProgress := Some {| enrolledAt := Some (mkTimestamp 1735689600000) |};
     isLoginPopupOpen := false;
     mutations := [];
     log := [] |}.

(** * Properties *)

(** ** The monad and the log *)

Lemma exec_bind {A B} (m : Eff A) (k : A → Eff B) (w : World) :
  exec (m ≫= k) w = exec (k (fst (m w))) (exec m w).
Proof. unfold exec, mbind, Eff_bind. by destruct (m w). Qed.

Lemma exec_skip (w : World) : exec skip w = w.
Proof. done. Qed.

Lemma exec_emit (e : Event) (w : World) :
  exec (emit e) w = set_log (λ l, l ++ [e]) w.
Proof. done. Qed.

Lemma log_emit (e : Event) (w : World) :
  log (exec (emit e) w) = log w ++ [e].
Proof. done. Qed.

Lemma log_deleteUrlParam (name : string) (w : World) :
  log (exec (deleteUrlParam name) w) = log w ++ [EvDeleteUrlParam name].
Proof. done. Qed.

Lemma emitted_app {A} (m : Eff A) (w : World) (evs : list Event) :
  log (exec m w) = log w ++ evs → emitted m w = evs.
Proof. unfold emitted. intros ->. apply drop_app_length. Qed.

Lemma emitted_nil {A} (m : Eff A) (w : World) :
  exec m w = w → emitted m w = [].
Proof. unfold emitted. intros ->. apply drop_all. Qed.

Lemma count_events_app (p : Event → bool) (l k : list Event) :
  count_events p (l ++ k) = (count_events p l + count_events p k)%nat.
Proof. induction l as [|e l IH]; simpl; [done|]. rewrite IH. lia. Qed.

Lemma pending_count_app (l k : list Mutation) :
  pending_count (l ++ k) = (pending_count l + pending_count k)%nat.
Proof. induction l as [|m l IH]; simpl; [done|]. rewrite IH. lia. Qed.

Lemma analytics_of_app (l k : list Event) :
  analytics_of (l ++ k) = analytics_of l ++ analytics_of k.
Proof.
  induction l as [|e l IH]; simpl; [done|].
  destruct e; simpl; by rewrite ?IH.
Qed.

Lemma string_app_assoc (a b c : string) :
  (a +:+ b) +:+ c = a +:+ (b +:+ c).
Proof.
  induction a as [|x a IH]; [done|].
  change (String x ((a +:+ b) +:+ c) = String x (a +:+ (b +:+ c))).
  by rewrite IH.
Qed.

(** Unfolds the handlers down to record updates. *)
Ltac run :=
  unfold emitted, exec, activate, mount, purchase_intent_effect,
    purchase_outcome_effect, onBuyClick, initPurchase,
    settle, run_handler, mark_settled, onSuccess, onError, run_callback,
    createCheckoutSession, start_mutation, onMutate, mutationFn,
    getUrlParams, deleteUrlParam, isLoggedIn, window_gtag, fireEvent,
    setTimeout, set_location_href, toast_loading, toast_error,
    console_error, httpPost, setIsLoginPopupOpen, skip, emit,
    mbind, Eff_bind, mret, Eff_ret;
  simpl.

Section Properties.

Variable COURSE_PURCHASE_PARAM : string.
Variable COURSE_PURCHASE_SUCCESS_PARAM : string.
Variable PUBLIC_COURSE_APP_URL : string.

Local Abbreviation intent_effect :=
  (purchase_intent_effect COURSE_PURCHASE_PARAM
     COURSE_PURCHASE_SUCCESS_PARAM).
Local Abbreviation outcome_effect :=
  (purchase_outcome_effect COURSE_PURCHASE_SUCCESS_PARAM).
Local Abbreviation mount_ :=
  (mount COURSE_PURCHASE_PARAM COURSE_PURCHASE_SUCCESS_PARAM).
Local Abbreviation initPurchase_ :=
  (initPurchase COURSE_PURCHASE_SUCCESS_PARAM).
Local Abbreviation onBuyClick_ :=
  (onBuyClick COURSE_PURCHASE_SUCCESS_PARAM PUBLIC_COURSE_APP_URL).
Local Abbreviation activate_ :=
  (activate COURSE_PURCHASE_SUCCESS_PARAM PUBLIC_COURSE_APP_URL).
Local Abbreviation steps_ :=
  (steps COURSE_PURCHASE_SUCCESS_PARAM PUBLIC_COURSE_APP_URL).

(** *** The purchase-initiation procedure *)

Lemma initPurchase_logged_out (w : World) :
  logged_in w = false → exec initPurchase_ w = w.
Proof. intros H. run. by rewrite H. Qed.

Lemma initPurchase_url_params (w : World) :
  url_params (exec initPurchase_ w) = url_params w.
Proof. run. by destruct (logged_in w). Qed.

Lemma initPurchase_log (w : World) :
  ∃ evs,
    log (exec initPurchase_ w) = log w ++ evs
    ∧ ∀ name, count_events (is_deleteUrlParam name) evs = 0%nat.
Proof.
  run. destruct (logged_in w); simpl.
  - eexists. rewrite <- app_assoc. split; [done|]. done.
  - exists []. by rewrite app_nil_r.
Qed.

Lemma initPurchase_mutations (w : World) :
  (logged_in w = false → mutations (exec initPurchase_ w) = mutations w)
  ∧ (logged_in w = true →
     ∃ body,
       mutations (exec initPurchase_ w)
       = mutations w ++ [mkMutation body Pending]).
Proof.
  split; intros H; run; rewrite H; simpl; [done|by eexists].
Qed.

(** *** The two mount effects *)

Lemma intent_effect_fires (w : World) :
  url_params w !! COURSE_PURCHASE_PARAM = Some "1" →
  exec intent_effect w
  = exec initPurchase_ (exec (deleteUrlParam COURSE_PURCHASE_PARAM) w).
Proof. intros H. run. by rewrite H. Qed.

Lemma intent_effect_idle (w : World) :
  url_params w !! COURSE_PURCHASE_PARAM ≠ Some "1" →
  exec intent_effect w = w.
Proof.
  intros H. run.
  destruct (url_params w !! COURSE_PURCHASE_PARAM) as [v|] eqn:E;
    simpl; [|done].
  destruct (String.eqb_spec v "1") as [->|]; [done|done].
Qed.

Lemma outcome_effect_idle (w : World) :
  truthy_string (url_params w !! COURSE_PURCHASE_SUCCESS_PARAM) = false →
  exec outcome_effect w = w.
Proof. intros H. run. by rewrite H. Qed.

Lemma outcome_effect_fires (w : World) :
  truthy_string (url_params w !! COURSE_PURCHASE_SUCCESS_PARAM) = true →
  exec outcome_effect w
  = exec (deleteUrlParam COURSE_PURCHASE_SUCCESS_PARAM)
      (exec (fireEvent
               (if strict_eq_string
                     (url_params w !! COURSE_PURCHASE_SUCCESS_PARAM) "1"
                then purchase_complete else purchase_canceled)) w).
Proof.
  intros H. run. rewrite H. simpl.
  by destruct (strict_eq_string _ _).
Qed.

Lemma outcome_effect_log (w : World) :
  ∃ evs,
    log (exec outcome_effect w) = log w ++ evs
    ∧ (∀ name, name ≠ COURSE_PURCHASE_SUCCESS_PARAM →
         count_events (is_deleteUrlParam name) evs = 0%nat)
    ∧ (url_params w !! COURSE_PURCHASE_SUCCESS_PARAM = None → evs = []).
Proof.
  run.
  destruct (truthy_string _) eqn:E; simpl.
  - exists [EvFireEvent
              (if strict_eq_string
                    (url_params w !! COURSE_PURCHASE_SUCCESS_PARAM) "1"
               then purchase_complete else purchase_canceled);
            EvDeleteUrlParam COURSE_PURCHASE_SUCCESS_PARAM].
    split; [|split].
    + destruct (strict_eq_string _ _); simpl;
        rewrite <- app_assoc; reflexivity.
    + intros name Hne.
      assert (String.eqb COURSE_PURCHASE_SUCCESS_PARAM name = false) as Hb
        by (apply String.eqb_neq; congruence).
      destruct (strict_eq_string _ _); simpl; by rewrite Hb.
    + intros Hnone. by rewrite Hnone in E.
  - exists []. by rewrite app_nil_r.
Qed.

Lemma outcome_effect_keeps_absent (w : World) (name : string) :
  url_params w !! name = None →
  url_params (exec outcome_effect w) !! name = None.
Proof.
  intros H. run. destruct (truthy_string _); simpl; [|done].
  destruct (strict_eq_string _ _); simpl.
  all: by apply lookup_delete_None; right.
Qed.

Lemma outcome_effect_mutations (w : World) :
  mutations (exec outcome_effect w) = mutations w.
Proof.
  run. destruct (truthy_string _); simpl; [|done].
  by destruct (strict_eq_string _ _).
Qed.

Lemma outcome_effect_url_other (w : World) (name : string) :
  name ≠ COURSE_PURCHASE_SUCCESS_PARAM →
  url_params (exec outcome_effect w) !! name = url_params w !! name.
Proof.
  intros Hne. run. destruct (truthy_string _); simpl; [|done].
  destruct (strict_eq_string _ _); simpl; by rewrite lookup_delete_ne.
Qed.

(** C1.  When the purchase-intent parameter is "1" at mount, the
    intent effect is exactly: delete the parameter, then run the
    purchase-initiation procedure, whatever the session check answers.
    Over the whole mount the parameter is deleted once, and it is gone
    from the address afterwards. *)
Theorem mount_intent_deletes_once_then_initiates (w : World) :
  url_params w !! COURSE_PURCHASE_PARAM = Some "1" →
  exec intent_effect w
  = exec initPurchase_ (exec (deleteUrlParam COURSE_PURCHASE_PARAM) w)
  ∧ count_events (is_deleteUrlParam COURSE_PURCHASE_PARAM)
      (emitted mount_ w) = 1%nat
  ∧ url_params (exec mount_ w) !! COURSE_PURCHASE_PARAM = None.
Proof.
  intros H. split; [by apply intent_effect_fires|].
  unfold mount. rewrite exec_bind.
  set (w1 := exec intent_effect w).
  assert (url_params w1 !! COURSE_PURCHASE_PARAM = None) as Hgone.
  { unfold w1. rewrite intent_effect_fires by done.
    rewrite initPurchase_url_params. run. apply lookup_delete_eq. }
  assert (∃ evs, log w1 = log w ++ EvDeleteUrlParam COURSE_PURCHASE_PARAM :: evs
                 ∧ count_events (is_deleteUrlParam COURSE_PURCHASE_PARAM) evs
                   = 0%nat) as (evs1 & Hlog1 & Hc1).
  { unfold w1. rewrite intent_effect_fires by done.
    destruct (initPurchase_log (exec (deleteUrlParam COURSE_PURCHASE_PARAM) w))
      as (evs & Hl & Hc).
    exists evs. split; [|apply Hc].
    rewrite Hl. run. by rewrite <- app_assoc. }
  destruct (outcome_effect_log w1) as (evs2 & Hlog2 & Hc2 & Hn2).
  assert (emitted mount_ w
          = EvDeleteUrlParam COURSE_PURCHASE_PARAM :: evs1 ++ evs2) as Hem.
  { apply emitted_app. unfold mount. rewrite exec_bind. fold w1.
    rewrite Hlog2, Hlog1. by rewrite <- app_assoc. }
  split.
  - unfold mount in Hem. rewrite Hem. simpl.
    rewrite String.eqb_refl, count_events_app, Hc1.
    destruct (decide (COURSE_PURCHASE_PARAM = COURSE_PURCHASE_SUCCESS_PARAM))
      as [Heq|Hne].
    + rewrite Hn2; [done|]. by rewrite <- Heq.
    + by rewrite Hc2.
  - by apply outcome_effect_keeps_absent.
Qed.

Lemma intent_effect_log (w : World) :
  ∃ evs,
    log (exec intent_effect w) = log w ++ evs ∧ analytics_of evs = []
    ∧ ∀ name, name ≠ COURSE_PURCHASE_PARAM →
        count_events (is_deleteUrlParam name) evs = 0%nat.
Proof.
  assert (∀ name, name ≠ COURSE_PURCHASE_PARAM →
                  String.eqb COURSE_PURCHASE_PARAM name = false) as Hb
    by (intros name Hne; apply String.eqb_neq; congruence).
  run. destruct (strict_eq_string _ _); simpl.
  - destruct (logged_in w); simpl.
    + eexists. rewrite <- !app_assoc. split; [reflexivity|].
      split; [done|]. intros name Hne. simpl. by rewrite Hb.
    + eexists. split; [reflexivity|].
      split; [done|]. intros name Hne. simpl. by rewrite Hb.
  - exists []. by rewrite app_nil_r.
Qed.

Lemma intent_effect_url_other (w : World) (name : string) :
  name ≠ COURSE_PURCHASE_PARAM →
  url_params (exec intent_effect w) !! name = url_params w !! name.
Proof.
  intros Hne. run. destruct (strict_eq_string _ _); simpl; [|done].
  destruct (logged_in w); simpl; by rewrite lookup_delete_ne.
Qed.

Lemma truthy_string_Some (v : string) :
  v ≠ "" → truthy_string (Some v) = true.
Proof.
  intros H. simpl. by destruct (String.eqb_spec v "").
Qed.

(** C2, as the code has it.  At mount, when the purchase-outcome
    parameter is present with a non-empty value, the outcome effect
    fires one analytics event, purchase_complete for "1" and
    purchase_canceled for any other value, and then deletes the
    parameter; the mount as a whole fires that event and no other.
    When the parameter is absent the outcome effect changes nothing
    and the mount fires no analytics event. *)
Theorem mount_outcome_reports_once (w : World) :
  (∀ v, url_params w !! COURSE_PURCHASE_SUCCESS_PARAM = Some v →
        v ≠ "" →
        let ev := if String.eqb v "1" then purchase_complete
                  else purchase_canceled in
        emitted outcome_effect w
        = [EvFireEvent ev; EvDeleteUrlParam COURSE_PURCHASE_SUCCESS_PARAM]
        ∧ url_params (exec outcome_effect w)
          = delete COURSE_PURCHASE_SUCCESS_PARAM (url_params w)
        ∧ (COURSE_PURCHASE_PARAM ≠ COURSE_PURCHASE_SUCCESS_PARAM →
           analytics_of (emitted mount_ w) = [ev]
           ∧ url_params (exec mount_ w) !! COURSE_PURCHASE_SUCCESS_PARAM
             = None))
  ∧ (url_params w !! COURSE_PURCHASE_SUCCESS_PARAM = None →
     exec outcome_effect w = w
     ∧ (COURSE_PURCHASE_PARAM ≠ COURSE_PURCHASE_SUCCESS_PARAM →
        analytics_of (emitted mount_ w) = []
        ∧ url_params (exec mount_ w) !! COURSE_PURCHASE_SUCCESS_PARAM
          = None)).
Proof.
  split.
  - intros v Hv Hne ev.
    assert (emitted outcome_effect w
            = [EvFireEvent ev; EvDeleteUrlParam COURSE_PURCHASE_SUCCESS_PARAM]
            ∧ url_params (exec outcome_effect w)
              = delete COURSE_PURCHASE_SUCCESS_PARAM (url_params w)) as Heff.
    { split.
      - apply emitted_app.
        rewrite outcome_effect_fires
          by (rewrite Hv; by apply truthy_string_Some).
        rewrite Hv. run. by rewrite <- app_assoc.
      - rewrite outcome_effect_fires
          by (rewrite Hv; by apply truthy_string_Some).
        by run. }
    destruct Heff as [Hem Hurl]. split; [done|]. split; [done|].
    intros Hdiff.
    destruct (intent_effect_log w) as (evs1 & Hlog1 & Han1 & Hdel1).
    assert (url_params (exec intent_effect w) !! COURSE_PURCHASE_SUCCESS_PARAM
            = Some v) as Hv1 by (rewrite intent_effect_url_other; done).
    split.
    + erewrite emitted_app; last first.
      { unfold mount. rewrite exec_bind.
        rewrite outcome_effect_fires
          by (rewrite Hv1; by apply truthy_string_Some).
        rewrite Hv1. simpl.
        rewrite Hlog1, <- !app_assoc. reflexivity. }
      rewrite analytics_of_app, Han1. done.
    + unfold mount. rewrite exec_bind.
      rewrite outcome_effect_fires
        by (rewrite Hv1; by apply truthy_string_Some).
      run. apply lookup_delete_eq.
  - intros Hnone.
    assert (∀ w', url_params w' !! COURSE_PURCHASE_SUCCESS_PARAM = None →
                  exec outcome_effect w' = w') as Hidle.
    { intros w' H'. apply outcome_effect_idle. by rewrite H'. }
    split; [by apply Hidle|]. intros Hdiff.
    destruct (intent_effect_log w) as (evs1 & Hlog1 & Han1 & Hdel1).
    assert (url_params (exec intent_effect w) !! COURSE_PURCHASE_SUCCESS_PARAM
            = None) as Hv1 by (rewrite intent_effect_url_other; done).
    assert (exec mount_ w = exec intent_effect w) as Hm.
    { unfold mount. rewrite exec_bind. by apply Hidle. }
    split.
    + erewrite emitted_app; [exact Han1|]. by rewrite Hm.
    + by rewrite Hm.
Qed.

(** C9.  When the purchase-outcome parameter is present at mount with
    the empty string as its value, the outcome effect does nothing, as
    it does when the parameter is absent: the mount fires no analytics
    event and the parameter stays in the address. *)
Theorem mount_outcome_empty_value_ignored (w : World) :
  url_params w !! COURSE_PURCHASE_SUCCESS_PARAM = Some "" →
  exec outcome_effect w = w
  ∧ emitted outcome_effect w = []
  ∧ (COURSE_PURCHASE_PARAM ≠ COURSE_PURCHASE_SUCCESS_PARAM →
     analytics_of (emitted mount_ w) = []
     ∧ count_events (is_deleteUrlParam COURSE_PURCHASE_SUCCESS_PARAM)
         (emitted mount_ w) = 0%nat
     ∧ url_params (exec mount_ w) !! COURSE_PURCHASE_SUCCESS_PARAM
       = Some "").
Proof.
  intros Hv.
  assert (exec outcome_effect w = w) as Hidle
    by (apply outcome_effect_idle; by rewrite Hv).
  split; [done|]. split; [by apply emitted_nil|]. intros Hdiff.
  assert (url_params (exec intent_effect w) !! COURSE_PURCHASE_SUCCESS_PARAM
          = Some "") as Hv1 by (rewrite intent_effect_url_other; done).
  assert (exec mount_ w = exec intent_effect w) as Hm.
  { unfold mount. rewrite exec_bind. apply outcome_effect_idle.
    by rewrite Hv1. }
  destruct (intent_effect_log w) as (evs1 & Hlog1 & Han1 & Hdel1).
  assert (emitted mount_ w = evs1) as Hem
    by (apply emitted_app; by rewrite Hm).
  split; [by rewrite Hem|]. split; [|by rewrite Hm].
  rewrite Hem. apply Hdel1. congruence.
Qed.

(** C10.  When the purchase-intent parameter is present at mount with
    a value other than "1", the intent effect does nothing: no
    checkout-session command is issued by the mount, and the parameter
    is still in the address, with its value, after it. *)
Theorem mount_intent_other_value_untouched (w : World) (v : string) :
  url_params w !! COURSE_PURCHASE_PARAM = Some v →
  v ≠ "1" →
  exec intent_effect w = w
  ∧ mutations (exec mount_ w) = mutations w
  ∧ count_events (is_deleteUrlParam COURSE_PURCHASE_PARAM)
      (emitted intent_effect w) = 0%nat
  ∧ (COURSE_PURCHASE_PARAM ≠ COURSE_PURCHASE_SUCCESS_PARAM →
     url_params (exec mount_ w) !! COURSE_PURCHASE_PARAM = Some v).
Proof.
  intros Hv Hne.
  assert (exec intent_effect w = w) as Hidle
    by (apply intent_effect_idle; rewrite Hv; congruence).
  assert (exec mount_ w = exec outcome_effect w) as Hm
    by (unfold mount; rewrite exec_bind; by rewrite Hidle).
  split; [done|]. split; [|split].
  - rewrite Hm. apply outcome_effect_mutations.
  - by rewrite emitted_nil.
  - intros Hdiff. rewrite Hm.
    rewrite outcome_effect_url_other by done. exact Hv.
Qed.

Lemma mount_without_params (w : World) :
  url_params w !! COURSE_PURCHASE_PARAM ≠ Some "1" →
  truthy_string (url_params w !! COURSE_PURCHASE_SUCCESS_PARAM) = false →
  exec mount_ w = w.
Proof.
  intros Hp Hs. unfold mount. rewrite exec_bind.
  rewrite intent_effect_idle by done. by apply outcome_effect_idle.
Qed.

(** After a mount the intent parameter is not "1" and the outcome
    parameter is absent or empty. *)
Lemma mount_strips (w : World) :
  url_params (exec mount_ w) !! COURSE_PURCHASE_PARAM ≠ Some "1"
  ∧ truthy_string
      (url_params (exec mount_ w) !! COURSE_PURCHASE_SUCCESS_PARAM) = false.
Proof.
  unfold mount. rewrite exec_bind.
  set (w1 := exec intent_effect w).
  assert (url_params w1 !! COURSE_PURCHASE_PARAM ≠ Some "1") as H1.
  { unfold w1.
    destruct (decide (url_params w !! COURSE_PURCHASE_PARAM = Some "1"))
      as [Heq|Hne].
    - rewrite intent_effect_fires by done.
      rewrite initPurchase_url_params. run. by rewrite lookup_delete_eq.
    - by rewrite intent_effect_idle. }
  clearbody w1. split.
  - destruct (truthy_string
                (url_params w1 !! COURSE_PURCHASE_SUCCESS_PARAM)) eqn:E.
    + rewrite outcome_effect_fires by done. run.
      intros [_ Hl]%lookup_delete_Some. done.
    + by rewrite outcome_effect_idle.
  - destruct (truthy_string
                (url_params w1 !! COURSE_PURCHASE_SUCCESS_PARAM)) eqn:E.
    + rewrite outcome_effect_fires by done. run.
      by rewrite lookup_delete_eq.
    + by rewrite outcome_effect_idle.
Qed.

(** C8.  On an address from which both parameters have been stripped,
    each of the two mount effects is a no-op; and since a mount strips
    what it interprets, mounting a second time changes nothing: no
    purchase is initiated and no analytics event is reported again. *)
Theorem remount_after_strip_is_noop (w : World) :
  (url_params w !! COURSE_PURCHASE_PARAM = None →
   url_params w !! COURSE_PURCHASE_SUCCESS_PARAM = None →
   exec intent_effect w = w ∧ exec outcome_effect w = w
   ∧ emitted mount_ w = [])
  ∧ exec mount_ (exec mount_ w) = exec mount_ w.
Proof.
  split.
  - intros Hp Hs. split; [|split].
    + apply intent_effect_idle. by rewrite Hp.
    + apply outcome_effect_idle. by rewrite Hs.
    + apply emitted_nil, mount_without_params; [by rewrite Hp|by rewrite Hs].
  - destruct (mount_strips w) as [Hp Hs]. by apply mount_without_params.
Qed.

(** *** The purchase-initiation procedure and the click handler *)

(** C7.  The purchase-initiation procedure does nothing at all when
    the session check answers "not authenticated".  When it answers
    "authenticated", one checkout-session command is issued (after the
    loading toast), for the course, whose success and cancel paths are
    the same course page address followed by the purchase-outcome
    parameter, set to 1 in the one and to 0 in the other. *)
Theorem initPurchase_silent_or_checkout (w : World) :
  (logged_in w = false →
   exec initPurchase_ w = w ∧ emitted initPurchase_ w = [])
  ∧ (logged_in w = true →
     ∃ body,
       mutations (exec initPurchase_ w)
       = mutations w ++ [mkMutation body Pending]
       ∧ emitted initPurchase_ w
         = [EvToastLoading "Creating checkout session...";
            EvHttpPost "/v1-create-checkout-session" body]
       ∧ courseId body = SQL_COURSE_SLUG
       ∧ let page := "/courses/" +:+ SQL_COURSE_SLUG +:+ "?" +:+
                     COURSE_PURCHASE_SUCCESS_PARAM +:+ "=" in
         success body = Some (page +:+ "1")
         ∧ cancel body = Some (page +:+ "0")).
Proof.
  split.
  - intros H. split; [by apply initPurchase_logged_out|].
    by apply emitted_nil, initPurchase_logged_out.
  - intros H. eexists. split; [|split; [|split; [|split]]].
    + run. rewrite H. simpl. reflexivity.
    + apply emitted_app. run. rewrite H. simpl.
      by rewrite <- app_assoc.
    + done.
    + simpl. unfold success_path. by rewrite !string_app_assoc.
    + simpl. unfold cancel_path. by rewrite !string_app_assoc.
Qed.

(** The three branches of the click handler, on the state of the
    component.  Not authenticated: the login
    popup state is opened and nothing else happens, no command is
    issued, nothing leaves the component and the address parameters
    are as they were.  Authenticated and [enrolledAt] present: the
    browser is sent to the course application address of the course
    and no command is issued.  Authenticated and not enrolled: the
    click does what the purchase-initiation procedure does. *)
Theorem onBuyClick_branches (w : World) :
  (logged_in w = false →
   isLoginPopupOpen (exec onBuyClick_ w) = true
   ∧ emitted onBuyClick_ w = []
   ∧ mutations (exec onBuyClick_ w) = mutations w
   ∧ url_params (exec onBuyClick_ w) = url_params w)
  ∧ (logged_in w = true →
     ∀ t, courseProgress w ≫= enrolledAt = Some t →
     emitted onBuyClick_ w
     = [EvLocationHref (PUBLIC_COURSE_APP_URL +:+ "/" +:+ SQL_COURSE_SLUG)]
     ∧ mutations (exec onBuyClick_ w) = mutations w
     ∧ isLoginPopupOpen (exec onBuyClick_ w) = isLoginPopupOpen w)
  ∧ (logged_in w = true →
     courseProgress w ≫= enrolledAt = None →
     exec onBuyClick_ w = exec initPurchase_ w).
Proof.
  split; [|split].
  - intros H.
    assert (exec onBuyClick_ w = set_isLoginPopupOpen true w) as Hrun
      by (run; by rewrite H).
    unfold emitted. rewrite Hrun. simpl.
    repeat split; try done. apply drop_all.
  - intros H t Ht.
    assert (exec onBuyClick_ w
            = exec (set_location_href
                      (PUBLIC_COURSE_APP_URL +:+ "/" +:+ SQL_COURSE_SLUG)) w)
      as Hrun.
    { unfold exec, onBuyClick, isLoggedIn, mbind, Eff_bind. simpl.
      rewrite H. simpl. unfold hasEnrolled. by rewrite Ht. }
    split; [|by rewrite Hrun].
    apply emitted_app. by rewrite Hrun.
  - intros H Hn.
    unfold exec, onBuyClick, isLoggedIn, mbind, Eff_bind. simpl.
    rewrite H. simpl. unfold hasEnrolled. by rewrite Hn.
Qed.

(** *** The checkout-session command settling *)

(** C3.  The success handler.  Without the analytics capability
    ([window.gtag] undefined) it does one thing, assign [checkoutUrl]
    to the location: no event, no timer.  With it, it emits the
    begin_checkout event, whose callback assigns [checkoutUrl] to the
    location when run, and sets a timer of 3000 ms whose callback does
    the same. *)
Theorem onSuccess_redirects (w : World)
    (data : CreateCheckoutSessionResponse) :
  (gtag w = false →
   emitted (onSuccess data) w = [EvLocationHref (checkoutUrl data)])
  ∧ (gtag w = true →
     ∃ cb timer_cb,
       emitted (onSuccess data) w
       = [EvFireEvent {| action := "sql_begin_checkout";
                         category := "course";
                         label := "sql Course Checkout Started";
                         callback := Some cb |};
          EvSetTimeout timer_cb 3000]
       ∧ (∀ w', emitted (run_callback cb) w'
                = [EvLocationHref (checkoutUrl data)])
       ∧ (∀ w', emitted (run_callback timer_cb) w'
                = [EvLocationHref (checkoutUrl data)])).
Proof.
  split.
  - intros H. apply emitted_app. run. by rewrite H.
  - intros H. exists (Redirect (checkoutUrl data)), (Redirect (checkoutUrl data)).
    split; [|split].
    + apply emitted_app. run. rewrite H. simpl. by rewrite <- app_assoc.
    + intros w'. by apply emitted_app.
    + intros w'. by apply emitted_app.
Qed.

(** The [disabled] attribute of the button follows the loading of the
    pricing and nothing else, in every variant. *)
Lemma button_disabled (variant : Variant) (w : World) :
  disabled (button (render variant w)) = isLoadingPricing w.
Proof. by destruct variant. Qed.

Lemma button_pointer_events_none (variant : Variant) (w : World) :
  pointer_events_none (button (render variant w))
  = match variant with
    | top_nav => false
    | _ => isLoadingPricing w || isCreatingCheckoutSession w
    end.
Proof. by destruct variant. Qed.

(** The popup element is part of the main and floating trees only. *)
Lemma login_popup_rendered (variant : Variant) (w : World) :
  login_popup (render variant w)
  = match variant with
    | top_nav => false
    | _ => isLoginPopupOpen w
    end.
Proof. by destruct variant. Qed.

(** Once the pricing is loaded and no command is pending, every way
    of activating the button runs the click handler. *)
Lemma activate_when_idle (variant : Variant) (how : Activation) (w : World) :
  isLoadingPricing w = false →
  isCreatingCheckoutSession w = false →
  activate_ variant how w = onBuyClick_ w.
Proof.
  intros Hl Hc. unfold activate.
  rewrite button_disabled, button_pointer_events_none, Hl, Hc.
  by destruct variant, how.
Qed.

Lemma run_handler_mutations (o : Outcome) (w : World) :
  mutations (exec (run_handler o) w) = mutations w.
Proof. destruct o as [data|error]; run; [|done]. by destruct (gtag w). Qed.

Lemma settle_pending (i : nat) (o : Outcome) (w : World) (m : Mutation) :
  mutations w !! i = Some m →
  is_pending m = true →
  exec (settle i o) w = exec (mark_settled i m o) (exec (run_handler o) w).
Proof.
  intros Hi Hp. unfold exec at 1, settle. rewrite Hi, Hp.
  apply (exec_bind (run_handler o) (λ _, mark_settled i m o) w).
Qed.

Lemma settle_not_pending (i : nat) (o : Outcome) (w : World) :
  (∀ m, mutations w !! i = Some m → is_pending m = false) →
  exec (settle i o) w = w.
Proof.
  intros H. unfold exec, settle.
  destruct (mutations w !! i) as [m|]; [|done]. by rewrite (H m).
Qed.

Lemma settle_last (w : World) (ms : list Mutation)
    (body : CreateCheckoutSessionBody) (o : Outcome) :
  mutations w = ms ++ [mkMutation body Pending] →
  exec (settle (length ms) o) w
  = set_mutations (λ _, ms ++ [mkMutation body (settled_status o)])
      (exec (run_handler o) w).
Proof.
  intros Hm.
  rewrite (settle_pending _ _ _ (mkMutation body Pending))
    by (by rewrite ?Hm, ?list_lookup_middle).
  unfold exec at 1, mark_settled. simpl.
  unfold set_mutations. f_equal.
  rewrite run_handler_mutations, Hm.
  replace (length ms) with (length ms + 0)%nat by lia.
  by rewrite insert_app_r.
Qed.

(** C5.  The failure handler.  When the command that is pending
    fails, the error is written to the console and one error toast is
    shown, with the message of the error when it has a non-empty one
    and with "Failed to create checkout session" otherwise.  Nothing
    else leaves the component: no request is sent again and the
    location is not assigned.  The command is no longer pending, so
    with the pricing loaded every activation of the button reaches
    the click handler again. *)
Theorem checkout_failure_notifies (w : World) (ms : list Mutation)
    (body : CreateCheckoutSessionBody) (error : option FetchError) :
  mutations w = ms ++ [mkMutation body Pending] →
  let fail := settle (length ms) (Rejected error) in
  ∃ shown,
    emitted fail w = [EvConsoleError error; EvToastError shown]
    ∧ (∀ m, error ≫= message = Some m → m ≠ "" → shown = m)
    ∧ (error ≫= message = None ∨ error ≫= message = Some "" →
       shown = "Failed to create checkout session")
    ∧ mutations (exec fail w) = ms ++ [mkMutation body Failed]
    ∧ isCreatingCheckoutSession (exec fail w) = false
    ∧ (isLoadingPricing w = false →
       ∀ variant how,
         disabled (button (render variant (exec fail w))) = false
         ∧ pointer_events_none (button (render variant (exec fail w)))
           = false
         ∧ activate_ variant how (exec fail w) = onBuyClick_ (exec fail w)).
Proof.
  intros Hm fail.
  assert (exec fail w
          = set_mutations (λ _, ms ++ [mkMutation body Failed])
              (exec (onError error) w)) as Hrun
    by (unfold fail; by rewrite (settle_last _ _ _ _ Hm)).
  assert (isCreatingCheckoutSession (exec fail w) = false) as Hidle.
  { rewrite Hrun. unfold isCreatingCheckoutSession. simpl.
    by rewrite last_snoc. }
  exists (or_else (error ≫= message) "Failed to create checkout session").
  split; [|split; [|split; [|split; [|split]]]].
  - apply emitted_app. rewrite Hrun. run. by rewrite <- app_assoc.
  - intros m -> Hne. simpl. by destruct (String.eqb_spec m "").
  - by intros [-> | ->].
  - by rewrite Hrun.
  - done.
  - intros Hl variant how.
    assert (isLoadingPricing (exec fail w) = false) as Hl'
      by (by rewrite Hrun).
    rewrite button_disabled, button_pointer_events_none, Hl', Hidle.
    split; [done|]. split; [by destruct variant|].
    by apply activate_when_idle.
Qed.

(** *** Commands in flight *)

Lemma onBuyClick_mutations (w : World) :
  mutations (exec onBuyClick_ w) = mutations w
  ∨ ∃ body,
      mutations (exec onBuyClick_ w)
      = mutations w ++ [mkMutation body Pending].
Proof.
  run. destruct (logged_in w); simpl; [|by left].
  destruct (hasEnrolled w); simpl; [by left|].
  destruct (logged_in w); simpl; [|by left]. right. by eexists.
Qed.

Lemma isCreatingCheckoutSession_snoc (w w' : World) (m : Mutation) :
  mutations w' = mutations w ++ [m] →
  isCreatingCheckoutSession w' = is_pending m.
Proof.
  intros H. unfold isCreatingCheckoutSession, is_pending.
  by rewrite H, last_snoc.
Qed.

Lemma isCreatingCheckoutSession_same (w w' : World) :
  mutations w' = mutations w →
  isCreatingCheckoutSession w' = isCreatingCheckoutSession w.
Proof. unfold isCreatingCheckoutSession. by intros ->. Qed.

(** In the main and floating variants a pointer click does nothing
    while the latest command is pending. *)
Lemma pointer_click_blocked_while_pending (variant : Variant) (w : World) :
  variant ≠ top_nav →
  isCreatingCheckoutSession w = true →
  exec (activate_ variant ByPointer) w = w.
Proof.
  intros Hv Hc. unfold exec, activate.
  rewrite button_disabled, button_pointer_events_none, Hc, orb_true_r.
  destruct (isLoadingPricing w); [done|]. by destruct variant.
Qed.

(** In the top-nav variant nothing but the loading of the pricing
    stands between an activation and the click handler. *)
Lemma top_nav_click (how : Activation) (w : World) :
  isLoadingPricing w = false →
  activate_ top_nav how w = onBuyClick_ w.
Proof.
  intros Hl. unfold activate.
  rewrite button_disabled, button_pointer_events_none, Hl.
  by destruct how.
Qed.

Lemma onBuyClick_checkout (w : World) :
  logged_in w = true →
  courseProgress w ≫= enrolledAt = None →
  ∃ body evs,
    exec onBuyClick_ w
    = set_log (λ l, l ++ evs)
        (set_mutations (λ ms, ms ++ [mkMutation body Pending]) w).
Proof.
  intros Hl He. do 2 eexists. run. rewrite Hl. simpl.
  unfold hasEnrolled. rewrite He. simpl. rewrite Hl. simpl.
  unfold set_log, set_mutations. simpl. f_equal.
  rewrite <- app_assoc. reflexivity.
Qed.

(** In the top-nav variant, with the pricing loaded and an
    authenticated user who is not enrolled, a first click issues a
    command and, while that command is still pending, the button is
    not disabled and a second click issues another one: two commands
    are pending more than before. *)
Lemma top_nav_clicks_pile_up (w : World) :
  isLoadingPricing w = false →
  logged_in w = true →
  courseProgress w ≫= enrolledAt = None →
  let w1 := exec (activate_ top_nav ByPointer) w in
  let w2 := exec (activate_ top_nav ByPointer) w1 in
  isCreatingCheckoutSession w1 = true
  ∧ disabled (button (render top_nav w1)) = false
  ∧ pointer_events_none (button (render top_nav w1)) = false
  ∧ pending_count (mutations w2) = (pending_count (mutations w) + 2)%nat.
Proof.
  intros Hl Hin He w1 w2.
  destruct (onBuyClick_checkout w Hin He) as (b1 & evs1 & H1).
  assert (w1 = set_log (λ l, l ++ evs1)
                 (set_mutations (λ ms, ms ++ [mkMutation b1 Pending]) w))
    as Hw1.
  { unfold w1, exec. rewrite top_nav_click by done. exact H1. }
  assert (isLoadingPricing w1 = false) as Hl1 by (by rewrite Hw1).
  assert (logged_in w1 = true) as Hin1 by (by rewrite Hw1).
  assert (courseProgress w1 ≫= enrolledAt = None) as He1
    by (by rewrite Hw1).
  destruct (onBuyClick_checkout w1 Hin1 He1) as (b2 & evs2 & H2).
  assert (w2 = set_log (λ l, l ++ evs2)
                 (set_mutations (λ ms, ms ++ [mkMutation b2 Pending]) w1))
    as Hw2.
  { unfold w2, exec. rewrite top_nav_click by done. exact H2. }
  split; [|split; [|split]].
  - rewrite Hw1. unfold isCreatingCheckoutSession. simpl.
    by rewrite last_snoc.
  - by rewrite button_disabled.
  - done.
  - rewrite Hw2, Hw1. simpl. rewrite !pending_count_app. simpl. lia.
Qed.

Lemma pending_count_zero_lookup (ms : list Mutation) (i : nat)
    (m : Mutation) :
  pending_count ms = 0%nat → ms !! i = Some m → is_pending m = false.
Proof.
  revert i. induction ms as [|x ms IH]; intros i Hc Hi; [done|].
  simpl in Hc. destruct i as [|i]; simpl in Hi.
  - injection Hi as ->. destruct (is_pending m); [lia|done].
  - apply (IH i); [|done]. destruct (is_pending x); lia.
Qed.

Lemma single_flight_snoc (w : World) :
  single_flight w →
  mutations w = [] ∨ ∃ ms m, mutations w = ms ++ [m]
                             ∧ pending_count ms = 0%nat.
Proof.
  unfold single_flight, isCreatingCheckoutSession.
  destruct (mutations w) as [|x l] using rev_ind; [by left|].
  clear IHl. intros H. right. exists l, x. split; [done|].
  rewrite last_snoc, pending_count_app in H. simpl in H.
  unfold is_pending in H. destruct (status x); lia.
Qed.

Lemma single_flight_settle (i : nat) (o : Outcome) (w : World) :
  single_flight w → single_flight (exec (settle i o) w).
Proof.
  intros Hinv.
  destruct (mutations w !! i) as [m|] eqn:Hi; last first.
  { rewrite settle_not_pending; [done|]. intros m. by rewrite Hi. }
  destruct (is_pending m) eqn:Hp; last first.
  { rewrite settle_not_pending; [done|]. intros m'. rewrite Hi. congruence. }
  destruct (single_flight_snoc w Hinv) as [Hnil|(ms & x & Hm & Hc)].
  { by rewrite Hnil in Hi. }
  assert (i = length ms ∧ x = m) as [-> ->].
  { rewrite Hm in Hi. apply lookup_snoc_Some in Hi as [[Hlt Hi]|[? ?]]; [|done].
    by rewrite (pending_count_zero_lookup ms i m Hc Hi) in Hp. }
  destruct m as [body st]. unfold is_pending in Hp. simpl in Hp.
  destruct st; try done.
  rewrite (settle_last w ms body o Hm).
  unfold single_flight, isCreatingCheckoutSession. simpl.
  rewrite last_snoc, pending_count_app, Hc. by destruct o.
Qed.

Lemma single_flight_pointer_click (variant : Variant) (w : World) :
  variant ≠ top_nav →
  single_flight w → single_flight (exec (activate_ variant ByPointer) w).
Proof.
  intros Hv Hinv.
  destruct (isCreatingCheckoutSession w) eqn:Hc.
  { by rewrite pointer_click_blocked_while_pending. }
  assert (exec (activate_ variant ByPointer) w = w
          ∨ exec (activate_ variant ByPointer) w = exec onBuyClick_ w)
    as [->| ->]; [|done|].
  { unfold exec, activate. destruct (disabled _); [by left|].
    destruct (pointer_events_none _); [by left|by right]. }
  unfold single_flight in *. rewrite Hc in Hinv.
  destruct (onBuyClick_mutations w) as [Hsame|[body Hnew]].
  - by rewrite (isCreatingCheckoutSession_same w), Hsame, Hc.
  - rewrite (isCreatingCheckoutSession_snoc w _ _ Hnew), Hnew.
    rewrite pending_count_app, Hinv. done.
Qed.

(** In the main and floating variants, as long as the button is
    activated by pointer, no sequence of clicks and settlements leaves
    more than one command pending. *)
Lemma single_flight_steps (variant : Variant) (ss : list Step) (w : World) :
  variant ≠ top_nav →
  by_pointer_only ss →
  single_flight w →
  single_flight (exec (steps_ variant ss) w)
  ∧ (pending_count (mutations (exec (steps_ variant ss) w)) ≤ 1)%nat.
Proof.
  intros Hv Hp Hinv.
  assert (single_flight (exec (steps_ variant ss) w)) as Hend.
  { revert w Hinv. induction ss as [|s ss IH]; intros w Hinv; [done|].
    simpl. rewrite exec_bind. apply IH.
    - intros how Hin. apply Hp. by right.
    - destruct s as [how|i o]; simpl.
      + rewrite (Hp how) by left. by apply single_flight_pointer_click.
      + by apply single_flight_settle. }
  split; [done|]. unfold single_flight in Hend. rewrite Hend.
  destruct (isCreatingCheckoutSession _); lia.
Qed.

(** A mount on a fresh instance leaves at most its own command
    pending. *)
Lemma single_flight_mount (w : World) :
  mutations w = [] → single_flight (exec mount_ w).
Proof.
  intros Hnil. unfold mount. rewrite exec_bind.
  unfold single_flight.
  rewrite (isCreatingCheckoutSession_same (exec intent_effect w))
    by apply outcome_effect_mutations.
  rewrite outcome_effect_mutations.
  destruct (decide (url_params w !! COURSE_PURCHASE_PARAM = Some "1"))
    as [Hone|Hother].
  - rewrite intent_effect_fires by done.
    set (w0 := exec (deleteUrlParam COURSE_PURCHASE_PARAM) w).
    assert (mutations w0 = []) as Hnil0 by done.
    destruct (logged_in w0) eqn:Hin.
    + destruct (proj2 (initPurchase_mutations w0) Hin)
        as (body & Hm).
      rewrite (isCreatingCheckoutSession_snoc w0 _ _ Hm), Hm, Hnil0.
      done.
    + rewrite initPurchase_logged_out by done.
      unfold isCreatingCheckoutSession. by rewrite Hnil0.
  - rewrite intent_effect_idle by done.
    unfold isCreatingCheckoutSession. by rewrite Hnil.
Qed.

End Properties.

(** ** The properties on sample pages *)

Lemma mount_intent_deletes_once_then_initiates_witness :
  let w := fresh_page [("t", "1")] false true in
  url_params w !! "t" = Some "1"
  ∧ count_events (is_deleteUrlParam "t") (emitted (mount "t" "success") w)
    = 1%nat
  ∧ url_params (exec (mount "t" "success") w) !! "t" = None.
Proof.
  intros w. split; [reflexivity|].
  apply (mount_intent_deletes_once_then_initiates "t" "success" w).
  reflexivity.
Defined.

(** C2 as it is written fails on the code: with the purchase-outcome
    parameter present and empty, the mount fires no analytics event and
    leaves the parameter in the address. *)
Lemma outcome_present_but_empty_not_reported :
  ¬ (∀ (w : World) (v : string),
       url_params w !! "success" = Some v →
       length (analytics_of (emitted (mount "t" "success") w)) = 1%nat
       ∧ url_params (exec (mount "t" "success") w) !! "success" = None).
Proof.
  intros H.
  destruct (H (fresh_page [("success", "")] true true) "" eq_refl)
    as [Hone _].
  vm_compute in Hone. discriminate Hone.
Qed.

Lemma mount_outcome_reports_once_witness :
  (let w := fresh_page [("success", "0")] true true in
   analytics_of (emitted (mount "t" "success") w)
   = [purchase_canceled]
   ∧ url_params (exec (mount "t" "success") w) !! "success" = None)
  ∧ (let w := fresh_page [] true true in
     exec (purchase_outcome_effect "success") w = w).
Proof.
  split.
  - intros w.
    apply (proj1 (mount_outcome_reports_once "t" "success" w) "0");
      [reflexivity|discriminate|discriminate].
  - intros w.
    apply (proj2 (mount_outcome_reports_once "t" "success" w)).
    reflexivity.
Defined.

Lemma onSuccess_redirects_witness :
  emitted (onSuccess {| checkoutUrl := "https://pay.example/cs_1" |})
    (fresh_page [] true false)
  = [EvLocationHref "https://pay.example/cs_1"]
  ∧ count_events is_setTimeout
      (emitted (onSuccess {| checkoutUrl := "https://pay.example/cs_1" |})
         (fresh_page [] true true)) = 1%nat.
Proof.
  split.
  - apply (proj1 (onSuccess_redirects (fresh_page [] true false)
                    {| checkoutUrl := "https://pay.example/cs_1" |})).
    reflexivity.
  - destruct (proj2 (onSuccess_redirects (fresh_page [] true true)
                       {| checkoutUrl := "https://pay.example/cs_1" |})
                eq_refl) as (cb & timer_cb & Hem & _).
    rewrite Hem. reflexivity.
Defined.

(** C4, at the input where it fails.  A top-nav instance, pricing
    loaded, user authenticated and not enrolled, no command pending.
    After one click one command is pending and the button is neither
    disabled nor shielded from the pointer; after a second click two
    commands are pending at once. *)
Theorem top_nav_double_click_two_pending :
  let w := fresh_page [] true true in
  let click := activate "success" "https://app.example" top_nav ByPointer in
  pending_count (mutations w) = 0%nat
  ∧ pending_count (mutations (exec click w)) = 1%nat
  ∧ isCreatingCheckoutSession (exec click w) = true
  ∧ disabled (button (render top_nav (exec click w))) = false
  ∧ pointer_events_none (button (render top_nav (exec click w))) = false
  ∧ pending_count (mutations (exec click (exec click w))) = 2%nat.
Proof.
  intros w click.
  destruct (top_nav_clicks_pile_up "success" "https://app.example" w
              eq_refl eq_refl eq_refl) as (Hc & Hd & Hp & Hn).
  repeat split; try done.
Qed.

(** C6, at the input where it fails.  A top-nav instance, pricing
    loaded, visitor not authenticated, popup closed.  A click runs the
    handler, which opens the popup state, issues no command, sends
    nothing out and leaves the address parameters alone, as the claim
    says; but the tree the top-nav variant returns does not contain the
    popup, so no login popup is on screen after the click.  The same
    click in the main and floating variants puts the popup on screen. *)
Theorem top_nav_logged_out_click_shows_no_popup :
  let w := fresh_page [("utm_source", "mail")] false true in
  let click variant :=
    activate "success" "https://app.example" variant ByPointer in
  disabled (button (render top_nav w)) = false
  ∧ isLoginPopupOpen (exec (click top_nav) w) = true
  ∧ login_popup (render top_nav (exec (click top_nav) w)) = false
  ∧ emitted (click top_nav) w = []
  ∧ mutations (exec (click top_nav) w) = []
  ∧ url_params (exec (click top_nav) w) = url_params w
  ∧ login_popup (render main (exec (click main) w)) = true
  ∧ login_popup (render floating (exec (click floating) w)) = true.
Proof.
  intros w click.
  assert (∀ variant,
            exec (click variant) w = set_isLoginPopupOpen true w) as Hrun.
  { intros variant. unfold click.
    unfold exec. rewrite activate_when_idle by reflexivity.
    reflexivity. }
  unfold emitted. rewrite !Hrun. repeat split; reflexivity.
Qed.

Lemma checkout_failure_notifies_witness :
  let w := exec (initPurchase "success") (fresh_page [] true true) in
  let declined := Some {| message := Some "card declined" |} in
  count_events is_location_href (emitted (settle 0 (Rejected declined)) w)
  = 0%nat
  ∧ emitted (settle 0 (Rejected declined)) w
    = [EvConsoleError declined; EvToastError "card declined"].
Proof.
  intros w declined.
  destruct (checkout_failure_notifies "success" "https://app.example" w []
              {| courseId := "sql";
                 success := Some "/courses/sql?success=1";
                 cancel := Some "/courses/sql?success=0" |}
              declined eq_refl)
    as (shown & Hem & Hmsg & _).
  change (length (@nil Mutation)) with 0%nat in Hem.
  rewrite Hem, (Hmsg "card declined" eq_refl); [done|discriminate].
Defined.

Lemma onBuyClick_branches_witness :
  isLoginPopupOpen
    (exec (onBuyClick "success" "https://app.example")
       (fresh_page [] false true)) = true
  ∧ emitted (onBuyClick "success" "https://app.example")
      (enrolled_page [])
    = [EvLocationHref "https://app.example/sql"]
  ∧ exec (onBuyClick "success" "https://app.example")
      (fresh_page [] true true)
    = exec (initPurchase "success") (fresh_page [] true true).
Proof.
  split; [|split].
  - apply (proj1 (onBuyClick_branches "success" "https://app.example"
                    (fresh_page [] false true))).
    reflexivity.
  - apply (proj1 (proj2 (onBuyClick_branches "success" "https://app.example"
                           (enrolled_page []))) eq_refl
             (mkTimestamp 1735689600000)).
    reflexivity.
  - apply (proj2 (proj2 (onBuyClick_branches "success" "https://app.example"
                           (fresh_page [] true true)))); reflexivity.
Defined.

Lemma initPurchase_silent_or_checkout_witness :
  exec (initPurchase "success") (fresh_page [] false true)
  = fresh_page [] false true
  ∧ pending_count
      (mutations (exec (initPurchase "success") (fresh_page [] true true)))
    = 1%nat.
Proof.
  split.
  - apply (proj1 (initPurchase_silent_or_checkout "success"
                    (fresh_page [] false true))).
    reflexivity.
  - destruct (proj2 (initPurchase_silent_or_checkout "success"
                       (fresh_page [] true true)) eq_refl)
      as (body & Hm & _).
    rewrite Hm. reflexivity.
Defined.

Lemma remount_after_strip_is_noop_witness :
  let w := fresh_page [("utm_source", "mail")] true true in
  exec (purchase_intent_effect "t" "success") w = w
  ∧ exec (purchase_outcome_effect "success") w = w
  ∧ emitted (mount "t" "success") w = [].
Proof.
  intros w.
  apply (proj1 (remount_after_strip_is_noop "t" "success" w));
    reflexivity.
Defined.

Lemma mount_outcome_empty_value_ignored_witness :
  let w := fresh_page [("success", "")] true true in
  exec (purchase_outcome_effect "success") w = w
  ∧ url_params (exec (mount "t" "success") w) !! "success" = Some "".
Proof.
  intros w.
  destruct (mount_outcome_empty_value_ignored "t" "success" w eq_refl)
    as (Hidle & _ & Hmount).
  split; [exact Hidle|]. apply Hmount. discriminate.
Defined.

Lemma mount_intent_other_value_untouched_witness :
  let w := fresh_page [("t", "true")] true true in
  exec (purchase_intent_effect "t" "success") w = w
  ∧ url_params (exec (mount "t" "success") w) !! "t" = Some "true".
Proof.
  intros w.
  destruct (mount_intent_other_value_untouched "t" "success" w "true"
              eq_refl) as (Hidle & _ & _ & Hmount); [discriminate|].
  split; [exact Hidle|]. apply Hmount. discriminate.
Defined.


(** * The component over a whole visit *)

Section Visits.

Variable COURSE_PURCHASE_PARAM : string.
Variable COURSE_PURCHASE_SUCCESS_PARAM : string.
Variable PUBLIC_COURSE_APP_URL : string.

Local Abbreviation intent_effect :=
  (purchase_intent_effect COURSE_PURCHASE_PARAM
     COURSE_PURCHASE_SUCCESS_PARAM).
Local Abbreviation outcome_effect :=
  (purchase_outcome_effect COURSE_PURCHASE_SUCCESS_PARAM).
Local Abbreviation mount_ :=
  (mount COURSE_PURCHASE_PARAM COURSE_PURCHASE_SUCCESS_PARAM).
Local Abbreviation initPurchase_ :=
  (initPurchase COURSE_PURCHASE_SUCCESS_PARAM).
Local Abbreviation onBuyClick_ :=
  (onBuyClick COURSE_PURCHASE_SUCCESS_PARAM PUBLIC_COURSE_APP_URL).
Local Abbreviation activate_ :=
  (activate COURSE_PURCHASE_SUCCESS_PARAM PUBLIC_COURSE_APP_URL).
Local Abbreviation run_task_ :=
  (run_task COURSE_PURCHASE_SUCCESS_PARAM PUBLIC_COURSE_APP_URL).
Local Abbreviation run_tasks_ :=
  (run_tasks COURSE_PURCHASE_SUCCESS_PARAM PUBLIC_COURSE_APP_URL).
Local Abbreviation visit_ :=
  (visit COURSE_PURCHASE_PARAM COURSE_PURCHASE_SUCCESS_PARAM
     PUBLIC_COURSE_APP_URL).
Local Abbreviation request_ :=
  (checkout_request COURSE_PURCHASE_SUCCESS_PARAM).
Local Abbreviation app_href_ := (course_app_href PUBLIC_COURSE_APP_URL).

(** ** What each handler does to the world *)

Lemma initPurchase_cases (w : World) :
  (logged_in w = false ∧ exec initPurchase_ w = w)
  ∨ (logged_in w = true
     ∧ exec initPurchase_ w
       = set_log (λ l, l ++ [EvToastLoading "Creating checkout session...";
                             EvHttpPost "/v1-create-checkout-session"
                               request_])
           (set_mutations (λ ms, ms ++ [mkMutation request_ Pending]) w)).
Proof.
  run. destruct (logged_in w); simpl; [right|by left].
  split; [done|]. unfold set_log, set_mutations. simpl. f_equal.
  by rewrite <- app_assoc.
Qed.

Lemma onBuyClick_cases (w : World) :
  (logged_in w = false ∧ exec onBuyClick_ w = set_isLoginPopupOpen true w)
  ∨ (logged_in w = true ∧ hasEnrolled w = true
     ∧ exec onBuyClick_ w = set_log (λ l, l ++ [EvLocationHref app_href_]) w)
  ∨ (logged_in w = true ∧ hasEnrolled w = false
     ∧ exec onBuyClick_ w = exec initPurchase_ w).
Proof.
  unfold exec, onBuyClick, isLoggedIn, mbind, Eff_bind. simpl.
  destruct (logged_in w); simpl; [|by left]. right.
  destruct (hasEnrolled w); [by left|by right].
Qed.

Lemma activate_cases (variant : Variant) (how : Activation) (w : World) :
  exec (activate_ variant how) w = w
  ∨ (isLoadingPricing w = false
     ∧ exec (activate_ variant how) w = exec onBuyClick_ w).
Proof.
  unfold exec, activate. rewrite button_disabled.
  destruct (isLoadingPricing w); [by left|].
  destruct how; [|by right].
  destruct (pointer_events_none _); [by left|by right].
Qed.

Lemma run_handler_cases (o : Outcome) (w : World) :
  ∃ evs,
    exec (run_handler o) w = set_log (λ l, l ++ evs) w
    ∧ match o with
      | Resolved data =>
          evs = (if gtag w then
                   [EvFireEvent
                      {| action := "sql_begin_checkout";
                         category := "course";
                         label := "sql Course Checkout Started";
                         callback := Some (Redirect (checkoutUrl data)) |};
                    EvSetTimeout (Redirect (checkoutUrl data)) 3000]
                 else [EvLocationHref (checkoutUrl data)])
      | Rejected error =>
          evs = [EvConsoleError error;
                 EvToastError
                   (or_else (error ≫= message)
                      "Failed to create checkout session")]
      end.
Proof.
  destruct o as [data|error]; run.
  - destruct (gtag w); simpl; eexists; (split; [|reflexivity]);
      unfold set_log; simpl; f_equal; by rewrite <- ?app_assoc.
  - eexists. split; [|reflexivity].
    unfold set_log; simpl; f_equal; by rewrite <- ?app_assoc.
Qed.

Lemma settle_cases (i : nat) (o : Outcome) (w : World) :
  exec (settle i o) w = w
  ∨ ∃ m, mutations w !! i = Some m ∧ is_pending m = true
         ∧ exec (settle i o) w
           = exec (mark_settled i m o) (exec (run_handler o) w).
Proof.
  destruct (mutations w !! i) as [m|] eqn:Hi.
  - destruct (is_pending m) eqn:Hp.
    + right. exists m. split; [done|]. split; [done|].
      by apply settle_pending.
    + left. apply settle_not_pending. intros m'. rewrite Hi. congruence.
  - left. apply settle_not_pending. intros m'. by rewrite Hi.
Qed.

Lemma close_popup_cases (variant : Variant) (w : World) :
  exec (close_popup variant) w = w
  ∨ (variant ≠ top_nav ∧ isLoginPopupOpen w = true
     ∧ exec (close_popup variant) w = set_isLoginPopupOpen false w).
Proof.
  unfold exec, close_popup. rewrite login_popup_rendered.
  destruct variant; [| |by left];
    (destruct (isLoginPopupOpen w) eqn:E; [by right|by left]).
Qed.

Lemma fire_callback_cases (cb : Callback) (w : World) :
  exec (fire_callback cb) w = w
  ∨ (handed_out cb (log w) = true
     ∧ ∃ href, cb = Redirect href
               ∧ exec (fire_callback cb) w
                 = set_log (λ l, l ++ [EvLocationHref href]) w).
Proof.
  unfold exec, fire_callback.
  destruct (handed_out cb (log w)); [right|by left].
  split; [done|]. destruct cb as [href]. by exists href.
Qed.

Lemma outcome_effect_events (w : World) :
  log (exec outcome_effect w)
  = log w
    ++ (if truthy_string (url_params w !! COURSE_PURCHASE_SUCCESS_PARAM)
        then [EvFireEvent
                (if strict_eq_string
                      (url_params w !! COURSE_PURCHASE_SUCCESS_PARAM) "1"
                 then purchase_complete else purchase_canceled);
              EvDeleteUrlParam COURSE_PURCHASE_SUCCESS_PARAM]
        else []).
Proof.
  run. destruct (truthy_string _); simpl; [|by rewrite app_nil_r].
  destruct (strict_eq_string _ _); simpl; by rewrite <- app_assoc.
Qed.

Lemma intent_effect_events (w : World) :
  log (exec intent_effect w)
  = log w
    ++ (if strict_eq_string (url_params w !! COURSE_PURCHASE_PARAM) "1"
        then EvDeleteUrlParam COURSE_PURCHASE_PARAM
             :: (if logged_in w
                 then [EvToastLoading "Creating checkout session...";
                       EvHttpPost "/v1-create-checkout-session" request_]
                 else [])
        else []).
Proof.
  run. destruct (strict_eq_string _ _); simpl; [|by rewrite app_nil_r].
  destruct (logged_in w); simpl; by rewrite <- ?app_assoc.
Qed.

(** An invariant of every task of a visit is an invariant of the
    tasks together. *)
Lemma run_tasks_invariant (I : World → Prop) (variant : Variant)
    (ts : list Task) (w : World) :
  (∀ t w', t ∈ ts → I w' → I (exec (run_task_ variant t) w')) →
  I w → I (exec (run_tasks_ variant ts) w).
Proof.
  revert w. induction ts as [|t ts IH]; intros w Hstep Hw; [done|].
  simpl. rewrite exec_bind. apply IH.
  - intros t' w' Hin. apply Hstep. by right.
  - apply Hstep; [by left|done].
Qed.

Lemma single_flight_same (w w' : World) :
  mutations w' = mutations w → single_flight w → single_flight w'.
Proof.
  unfold single_flight, isCreatingCheckoutSession. by intros ->.
Qed.

Lemma run_task_single_flight (variant : Variant) (t : Task) (w : World) :
  variant ≠ top_nav →
  (∀ how, t = Activates how → how = ByPointer) →
  single_flight w → single_flight (exec (run_task_ variant t) w).
Proof.
  intros Hv Hp Hinv. destruct t as [how|i o| |cb]; simpl.
  - rewrite (Hp how eq_refl). by apply single_flight_pointer_click.
  - by apply single_flight_settle.
  - destruct (close_popup_cases variant w) as [->|(_ & _ & ->)]; [done|].
    by apply (single_flight_same w).
  - destruct (fire_callback_cases cb w) as [->|(_ & href & _ & ->)]; [done|].
    by apply (single_flight_same w).
Qed.

(** X1.  In the main and floating variants, over a whole visit of a
    fresh instance in which the button is activated by pointer only,
    at most one checkout-session command is pending after every task,
    however clicks, settlements, popup closings and callbacks are
    interleaved. *)
Theorem visit_single_flight (variant : Variant) (ts : list Task)
    (w : World) :
  variant ≠ top_nav →
  pointer_tasks_only ts →
  mutations w = [] →
  (pending_count (mutations (exec (visit_ variant ts) w)) ≤ 1)%nat.
Proof.
  intros Hv Hp Hnil.
  assert (single_flight (exec (visit_ variant ts) w)) as Hend.
  { unfold visit. rewrite exec_bind.
    apply (run_tasks_invariant single_flight).
    - intros t w' Hin. apply run_task_single_flight; [done|].
      intros how ->. by apply Hp.
    - by apply single_flight_mount. }
  unfold single_flight in Hend. rewrite Hend.
  destruct (isCreatingCheckoutSession _); lia.
Qed.

Lemma mount_logged_out (w : World) :
  logged_in w = false →
  logged_in (exec mount_ w) = false
  ∧ mutations (exec mount_ w) = mutations w
  ∧ ∃ evs,
      log (exec mount_ w) = log w ++ evs
      ∧ (∀ cb, handed_out cb evs = false)
      ∧ count_events is_httpPost evs = 0%nat
      ∧ count_events is_toast_loading evs = 0%nat
      ∧ count_events is_location_href evs = 0%nat.
Proof.
  intros H. run.
  destruct (strict_eq_string (url_params w !! COURSE_PURCHASE_PARAM) "1");
    simpl; rewrite ?H; simpl.
  all: destruct (truthy_string _); simpl.
  all: try destruct (strict_eq_string _ "1"); simpl.
  all: split; [done|]; split; [done|].
  all: rewrite <- ?app_assoc; eexists; split;
    [first [reflexivity | symmetry; apply app_nil_r]|done].
Qed.

(** X2.  A visitor who is not authenticated never causes a request:
    on a fresh instance, whatever the tasks of the visit, no command is
    ever issued and nothing leaves the component after the mount; the
    mount itself sends no request, shows no toast and does not assign
    the location. *)
Theorem anonymous_visit_sends_nothing (variant : Variant) (ts : list Task)
    (w : World) :
  logged_in w = false →
  mutations w = [] →
  log w = [] →
  mutations (exec (visit_ variant ts) w) = []
  ∧ log (exec (visit_ variant ts) w) = log (exec mount_ w)
  ∧ count_events is_httpPost (log (exec (visit_ variant ts) w)) = 0%nat
  ∧ count_events is_toast_loading (log (exec (visit_ variant ts) w)) = 0%nat
  ∧ count_events is_location_href (log (exec (visit_ variant ts) w)) = 0%nat.
Proof.
  intros Hout Hnil Hlog.
  destruct (mount_logged_out w Hout)
    as (Hout1 & Hm1 & evs & Hl1 & Hcb & Hpost & Htoast & Hloc).
  rewrite Hlog in Hl1. simpl in Hl1. rewrite Hnil in Hm1.
  set (I := λ w' : World,
         logged_in w' = false ∧ mutations w' = [] ∧ log w' = evs).
  assert (I (exec (visit_ variant ts) w)) as (_ & Hm & Hl).
  { unfold visit. rewrite exec_bind. apply (run_tasks_invariant I); [|done].
    intros t w' _ (Ho & Hm & Hl). destruct t as [how|i o| |cb]; simpl.
    - destruct (activate_cases variant how w') as [->|[_ ->]]; [done|].
      destruct (onBuyClick_cases w')
        as [[_ ->]|[(Hin & _)|(Hin & _)]]; [done|congruence|congruence].
    - destruct (settle_cases i o w') as [->|(m & Hi & _)]; [done|].
      by rewrite Hm in Hi.
    - by destruct (close_popup_cases variant w') as [->|(_ & _ & ->)].
    - destruct (fire_callback_cases cb w') as [->|(Hh & _)]; [done|].
      by rewrite Hl, Hcb in Hh. }
  rewrite Hl, Hl1. done.
Qed.

Lemma run_task_url_params (variant : Variant) (t : Task) (w : World) :
  url_params (exec (run_task_ variant t) w) = url_params w.
Proof.
  destruct t as [how|i o| |cb]; simpl.
  - destruct (activate_cases variant how w) as [->|[_ ->]]; [done|].
    destruct (onBuyClick_cases w)
      as [[_ ->]|[(_ & _ & ->)|(_ & _ & ->)]]; [done|done|].
    apply initPurchase_url_params.
  - destruct (settle_cases i o w) as [->|(m & _ & _ & ->)]; [done|].
    by destruct (run_handler_cases o w) as (evs & -> & _).
  - by destruct (close_popup_cases variant w) as [->|(_ & _ & ->)].
  - by destruct (fire_callback_cases cb w) as [->|(_ & href & _ & ->)].
Qed.

(** X3.  The query string is touched by the mount only, and only at
    the two parameters of the component: no task after the mount changes
    any parameter, and over a whole visit every parameter with another
    name keeps its value. *)
Theorem visit_url_frame (variant : Variant) (ts : list Task) (w : World) :
  url_params (exec (run_tasks_ variant ts) w) = url_params w
  ∧ ∀ name,
      name ≠ COURSE_PURCHASE_PARAM →
      name ≠ COURSE_PURCHASE_SUCCESS_PARAM →
      url_params (exec (visit_ variant ts) w) !! name
      = url_params w !! name.
Proof.
  assert (∀ w0, url_params (exec (run_tasks_ variant ts) w0) = url_params w0)
    as Htasks.
  { intros w0.
    apply (run_tasks_invariant (λ w', url_params w' = url_params w0));
      [|done].
    intros t w' _ <-. apply run_task_url_params. }
  split; [apply Htasks|].
  intros name Hp Hs. unfold visit. rewrite exec_bind, Htasks.
  unfold mount. rewrite exec_bind.
  rewrite outcome_effect_url_other, intent_effect_url_other; done.
Qed.

(** ** Clicks and what is on screen *)

Lemma activate_reaches_handler (variant : Variant) (how : Activation)
    (w : World) :
  isLoadingPricing w = false →
  isCreatingCheckoutSession w = false →
  exec (activate_ variant how) w = exec onBuyClick_ w.
Proof.
  intros Hl Hc. unfold exec. by rewrite activate_when_idle.
Qed.

(** X4.  After a click by a visitor who is not authenticated (pricing
    loaded, no command pending) the popup state is open in every
    variant, but the popup is on screen in the main and floating
    variants only: the top-nav tree does not contain it. *)
Theorem logged_out_click_popup_on_screen (variant : Variant)
    (how : Activation) (w : World) :
  logged_in w = false →
  isLoadingPricing w = false →
  isCreatingCheckoutSession w = false →
  isLoginPopupOpen (exec (activate_ variant how) w) = true
  ∧ login_popup (render variant (exec (activate_ variant how) w))
    = match variant with
      | top_nav => false
      | _ => true
      end.
Proof.
  intros Hout Hl Hc. rewrite activate_reaches_handler by done.
  destruct (onBuyClick_cases w)
    as [[_ ->]|[(Hin & _)|(Hin & _)]]; [|congruence|congruence].
  split; [done|]. by destruct variant.
Qed.

(** X5.  Opening the login popup by a click and closing it again
    leaves the instance as it was: in the main and floating variants,
    for a visitor who is not authenticated and with the popup closed at
    first, click then close gives back the same world. *)
Theorem popup_open_close_round_trip (variant : Variant) (how : Activation)
    (w : World) :
  variant ≠ top_nav →
  logged_in w = false →
  isLoadingPricing w = false →
  isCreatingCheckoutSession w = false →
  isLoginPopupOpen w = false →
  exec (close_popup variant) (exec (activate_ variant how) w) = w.
Proof.
  intros Hv Hout Hl Hc Hclosed. rewrite activate_reaches_handler by done.
  destruct (onBuyClick_cases w)
    as [[_ ->]|[(Hin & _)|(Hin & _)]]; [|congruence|congruence].
  unfold exec, close_popup. rewrite login_popup_rendered.
  destruct w; simpl in *; subst. by destruct variant.
Qed.

(** X6.  The caption and the click agree.  In the main and floating
    variants, for an authenticated user with the pricing loaded and no
    command pending: when the button reads "Start Learning" a click
    only sends the browser to the course application, and when it reads
    anything else a click issues one checkout-session command. *)
Theorem caption_matches_click (variant : Variant) (how : Activation)
    (w : World) :
  variant ≠ top_nav →
  logged_in w = true →
  isLoadingPricing w = false →
  isCreatingCheckoutSession w = false →
  (caption (button (render variant w)) = StartLearning →
   emitted (activate_ variant how) w = [EvLocationHref app_href_]
   ∧ mutations (exec (activate_ variant how) w) = mutations w)
  ∧ (caption (button (render variant w)) ≠ StartLearning →
     mutations (exec (activate_ variant how) w)
     = mutations w ++ [mkMutation request_ Pending]).
Proof.
  intros Hv Hin Hl Hc.
  assert (caption (button (render variant w)) = StartLearning
          ↔ hasEnrolled w = true) as Hcap.
  { destruct variant; [| |done]; simpl; rewrite Hl;
      unfold isAlreadyEnrolled; destruct (hasEnrolled w); try done;
      split; try done; by destruct (bool_decide _). }
  split.
  - intros He%Hcap. rewrite (emitted_app _ _ [EvLocationHref app_href_]).
    all: rewrite activate_reaches_handler by done.
    all: destruct (onBuyClick_cases w)
      as [[Hout _]|[(_ & _ & ->)|(_ & Hno & _)]]; try congruence; done.
  - intros He. rewrite activate_reaches_handler by done.
    destruct (onBuyClick_cases w)
      as [[Hout _]|[(_ & Hyes & _)|(_ & _ & ->)]]; [congruence| |].
    + by apply Hcap in Hyes.
    + by destruct (initPurchase_cases w) as [[Hout _]|[_ ->]];
        [congruence|].
Qed.

(** X7.  The mount does not look at the enrollment.  For an
    authenticated user who is enrolled already, a mount with the
    purchase-intent parameter at "1" issues a checkout-session command
    and does not assign the location, whereas a click on the same page
    sends the browser to the course application and issues none. *)
Theorem mount_ignores_enrollment (variant : Variant) (how : Activation)
    (w : World) (t : Timestamp) :
  logged_in w = true →
  courseProgress w ≫= enrolledAt = Some t →
  url_params w !! COURSE_PURCHASE_PARAM = Some "1" →
  (mutations (exec mount_ w) = mutations w ++ [mkMutation request_ Pending]
   ∧ count_events is_location_href (emitted mount_ w) = 0%nat)
  ∧ (isLoadingPricing w = false →
     isCreatingCheckoutSession w = false →
     emitted (activate_ variant how) w = [EvLocationHref app_href_]
     ∧ mutations (exec (activate_ variant how) w) = mutations w).
Proof.
  intros Hin Hen Hone. split.
  - assert (exec intent_effect w
            = set_log (λ l, l ++ [EvToastLoading "Creating checkout session...";
                                  EvHttpPost "/v1-create-checkout-session"
                                    request_])
                (set_mutations (λ ms, ms ++ [mkMutation request_ Pending])
                   (exec (deleteUrlParam COURSE_PURCHASE_PARAM) w))) as Hi.
    { rewrite intent_effect_fires by done.
      by destruct (initPurchase_cases
                     (exec (deleteUrlParam COURSE_PURCHASE_PARAM) w))
        as [[Hout _]|[_ ->]]; [simpl in Hout; congruence|]. }
    split.
    + unfold mount. rewrite exec_bind, outcome_effect_mutations, Hi. done.
    + erewrite emitted_app; last first.
      { unfold mount. rewrite exec_bind, outcome_effect_events, Hi. simpl.
        rewrite <- !app_assoc. reflexivity. }
      simpl. destruct (truthy_string _); [|done].
      by destruct (strict_eq_string _ _).
  - intros Hl Hc.
    assert (hasEnrolled w = true) as Hyes
      by (unfold hasEnrolled; by rewrite Hen).
    assert (exec (activate_ variant how) w
            = set_log (λ l, l ++ [EvLocationHref app_href_]) w) as Hrun.
    { rewrite activate_reaches_handler by done.
      destruct (onBuyClick_cases w)
        as [[Hout _]|[(_ & _ & ->)|(_ & Hno & _)]]; congruence. }
    split; [|by rewrite Hrun]. apply emitted_app. by rewrite Hrun.
Qed.

(** X9.  A command guards the button only while it is pending.  When
    the pending command succeeds and the analytics capability is
    present, the redirect is only handed out (to the event and to the
    timer), the location is not assigned yet, and the button reaches
    the click handler again: a click by an authenticated user who is not
    enrolled, in any variant and by any means, issues a second
    command. *)
Theorem succeeded_command_unguards (variant : Variant) (how : Activation)
    (w : World) (ms : list Mutation) (body : CreateCheckoutSessionBody)
    (data : CreateCheckoutSessionResponse) :
  mutations w = ms ++ [mkMutation body Pending] →
  gtag w = true →
  isLoadingPricing w = false →
  logged_in w = true →
  courseProgress w ≫= enrolledAt = None →
  let succeed := settle (length ms) (Resolved data) in
  count_events is_location_href (emitted succeed w) = 0%nat
  ∧ handed_out (Redirect (checkoutUrl data)) (log (exec succeed w)) = true
  ∧ isCreatingCheckoutSession (exec succeed w) = false
  ∧ mutations (exec (activate_ variant how) (exec succeed w))
    = ms ++ [mkMutation body Succeeded; mkMutation request_ Pending].
Proof.
  intros Hm Hg Hl Hin Hen succeed.
  destruct (run_handler_cases (Resolved data) w) as (evs & Hh & Hevs).
  rewrite Hg in Hevs.
  assert (exec succeed w
          = set_mutations (λ _, ms ++ [mkMutation body Succeeded])
              (set_log (λ l, l ++ evs) w)) as Hrun.
  { unfold succeed. by rewrite (settle_last _ _ _ _ Hm), Hh. }
  assert (isCreatingCheckoutSession (exec succeed w) = false) as Hidle.
  { rewrite Hrun. unfold isCreatingCheckoutSession. simpl.
    by rewrite last_snoc. }
  split; [|split; [|split]].
  - rewrite (emitted_app _ _ evs) by (by rewrite Hrun). by rewrite Hevs.
  - rewrite Hrun. simpl. unfold handed_out. rewrite existsb_app.
    apply orb_true_iff. right. rewrite Hevs. simpl.
    by rewrite String.eqb_refl.
  - done.
  - rewrite activate_reaches_handler; [|by rewrite Hrun|done].
    destruct (onBuyClick_cases (exec succeed w))
      as [[Hout _]|[(_ & Hyes & _)|(_ & _ & ->)]].
    + rewrite Hrun in Hout. simpl in Hout. congruence.
    + rewrite Hrun in Hyes. unfold hasEnrolled in Hyes. simpl in Hyes.
      by rewrite Hen in Hyes.
    + destruct (initPurchase_cases (exec succeed w)) as [[Hout _]|[_ ->]].
      * rewrite Hrun in Hout. simpl in Hout. congruence.
      * rewrite Hrun. simpl. by rewrite <- app_assoc.
Qed.

(** ** What a visit sends out *)

Lemma activate_effect (variant : Variant) (how : Activation) (w : World) :
  exec (activate_ variant how) w = w
  ∨ (logged_in w = false
     ∧ exec (activate_ variant how) w = set_isLoginPopupOpen true w)
  ∨ exec (activate_ variant how) w
    = set_log (λ l, l ++ [EvLocationHref app_href_]) w
  ∨ (logged_in w = true ∧ isLoadingPricing w = false
     ∧ exec (activate_ variant how) w
       = set_log (λ l, l ++ [EvToastLoading "Creating checkout session...";
                             EvHttpPost "/v1-create-checkout-session"
                               request_])
           (set_mutations (λ ms, ms ++ [mkMutation request_ Pending]) w)).
Proof.
  destruct (activate_cases variant how w) as [->|[Hl ->]]; [by left|].
  destruct (onBuyClick_cases w)
    as [[Hout ->]|[(_ & _ & ->)|(Hin & _ & ->)]];
    [by right; left|by right; right; left|].
  destruct (initPurchase_cases w) as [[Hout _]|[_ ->]]; [congruence|].
  by right; right; right.
Qed.

Lemma settle_effect (i : nat) (o : Outcome) (w : World) :
  exec (settle i o) w = w
  ∨ ∃ m evs,
      mutations w !! i = Some m ∧ is_pending m = true
      ∧ exec (settle i o) w
        = set_mutations <[i := mkMutation (request m) (settled_status o)]>
            (set_log (λ l, l ++ evs) w)
      ∧ match o with
        | Resolved data =>
            evs = (if gtag w then
                     [EvFireEvent
                        {| action := "sql_begin_checkout";
                           category := "course";
                           label := "sql Course Checkout Started";
                           callback := Some (Redirect (checkoutUrl data)) |};
                      EvSetTimeout (Redirect (checkoutUrl data)) 3000]
                   else [EvLocationHref (checkoutUrl data)])
        | Rejected error =>
            evs = [EvConsoleError error;
                   EvToastError
                     (or_else (error ≫= message)
                        "Failed to create checkout session")]
        end.
Proof.
  destruct (settle_cases i o w) as [->|(m & Hi & Hp & ->)]; [by left|].
  right. destruct (run_handler_cases o w) as (evs & -> & Hevs).
  by exists m, evs.
Qed.

Lemma count_mutations_app (p : Mutation → bool) (l k : list Mutation) :
  count_mutations p (l ++ k)
  = (count_mutations p l + count_mutations p k)%nat.
Proof. induction l as [|m l IH]; simpl; [done|]. rewrite IH. lia. Qed.

Lemma count_mutations_insert (p : Mutation → bool) (l : list Mutation)
    (i : nat) (x y : Mutation) :
  l !! i = Some x → p x = false →
  count_mutations p (<[i := y]> l)
  = (count_mutations p l + if p y then 1 else 0)%nat.
Proof.
  revert i. induction l as [|m l IH]; intros i Hi Hx; [done|].
  destruct i as [|i]; simpl in *.
  - injection Hi as ->. rewrite Hx. lia.
  - rewrite (IH i) by done. lia.
Qed.

(** X12.  No request is sent twice.  Over any visit of a fresh
    instance the POSTs to the checkout-session endpoint, the loading
    toasts and the commands issued are equally many, and the error
    toasts are as many as the commands that failed: a settlement never
    sends a request again. *)
Theorem visit_requests_match_commands (variant : Variant) (ts : list Task)
    (w : World) :
  mutations w = [] →
  log w = [] →
  let w' := exec (visit_ variant ts) w in
  count_events is_httpPost (log w') = length (mutations w')
  ∧ count_events is_toast_loading (log w') = length (mutations w')
  ∧ count_events is_toast_error (log w')
    = count_mutations is_failed (mutations w').
Proof.
  intros Hnil Hlog w'.
  set (I := λ u : World,
         count_events is_httpPost (log u) = length (mutations u)
         ∧ count_events is_toast_loading (log u) = length (mutations u)
         ∧ count_events is_toast_error (log u)
           = count_mutations is_failed (mutations u)).
  change (I w'). unfold w', visit. rewrite exec_bind.
  apply (run_tasks_invariant I).
  - intros t u _ (Hp & Hl & He). destruct t as [how|i o| |cb]; simpl.
    + destruct (activate_effect variant how u)
        as [->|[[_ ->]|[->|(_ & _ & ->)]]]; [done|done| |].
      * unfold I. simpl. rewrite !count_events_app. simpl.
        rewrite Hp, Hl, He. lia.
      * unfold I. simpl. rewrite !count_events_app, count_mutations_app.
        rewrite length_app. simpl. rewrite Hp, Hl, He. lia.
    + destruct (settle_effect i o u)
        as [->|(m & evs & Hi & Hpend & -> & Hevs)]; [done|].
      assert (is_failed m = false) as Hnf.
      { revert Hpend. unfold is_pending, is_failed. by destruct (status m). }
      unfold I. simpl.
      rewrite !count_events_app, length_insert,
        (count_mutations_insert _ _ _ m) by done.
      rewrite Hp, Hl, He.
      destruct o as [data|error]; subst evs; simpl; [|lia].
      destruct (gtag u); simpl; lia.
    + by destruct (close_popup_cases variant u) as [->|(_ & _ & ->)].
    + destruct (fire_callback_cases cb u)
        as [->|(_ & href & _ & ->)]; [done|].
      unfold I. simpl. rewrite !count_events_app. simpl.
      rewrite Hp, Hl, He. lia.
  - unfold I, mount. rewrite exec_bind.
    rewrite outcome_effect_events, outcome_effect_mutations.
    rewrite intent_effect_events, Hlog. simpl.
    rewrite !count_events_app.
    assert (mutations (exec intent_effect w)
            = if strict_eq_string (url_params w !! COURSE_PURCHASE_PARAM) "1"
                 && logged_in w
              then [mkMutation request_ Pending] else []) as ->.
    { run. destruct (strict_eq_string _ _); simpl; [|exact Hnil].
      destruct (logged_in w); simpl; [by rewrite Hnil|exact Hnil]. }
    destruct (strict_eq_string (url_params w !! COURSE_PURCHASE_PARAM) "1"),
      (logged_in w); simpl.
    all: by destruct (truthy_string _).
Qed.

Lemma checkout_urls_elem (ts : list Task) (i : nat)
    (data : CreateCheckoutSessionResponse) :
  CommandSettles i (Resolved data) ∈ ts →
  checkoutUrl data ∈ checkout_urls ts.
Proof.
  induction ts as [|t ts IH]; [by intros ?%elem_of_nil|].
  intros [<-|Hin]%elem_of_cons.
  - simpl. by left.
  - specialize (IH Hin).
    destruct t as [how|j [d|e]| |cb]; simpl; try done. by right.
Qed.

Lemma hands_out_destination (href : string) (e : Event) :
  hands_out (Redirect href) e = true → href ∈ destinations e.
Proof.
  destruct e as [n|a|m|m|err|ep b|[h] ms|h]; simpl; try done.
  - destruct (callback a) as [[h]|]; simpl; [|done].
    intros ->%String.eqb_eq. by left.
  - intros ->%String.eqb_eq. by left.
Qed.

Lemma handed_out_destination (href : string) (l : list Event) :
  handed_out (Redirect href) l = true →
  ∃ e, e ∈ l ∧ href ∈ destinations e.
Proof.
  unfold handed_out. intros (e & Hin & He)%existsb_exists.
  exists e. split; [by apply list_elem_of_In|].
  by apply hands_out_destination.
Qed.

(** X11.  The component sends the browser to two kinds of address
    only.  Over any visit of a fresh instance, every address assigned to
    the location, and every address a handed-out callback would assign,
    is the address of the course in the course application or a
    [checkoutUrl] the server answered with during the visit. *)
Theorem visit_destinations (variant : Variant) (ts : list Task)
    (w : World) :
  log w = [] →
  Forall (λ e, ∀ href, href ∈ destinations e →
                 href = app_href_ ∨ href ∈ checkout_urls ts)
    (log (exec (visit_ variant ts) w)).
Proof.
  intros Hlog.
  set (P := λ e : Event, ∀ href, href ∈ destinations e →
                 href = app_href_ ∨ href ∈ checkout_urls ts).
  unfold visit. rewrite exec_bind.
  apply (run_tasks_invariant (λ u, Forall P (log u))).
  - intros t u Hin Hu. destruct t as [how|i o| |cb]; simpl.
    + destruct (activate_effect variant how u)
        as [->|[[_ ->]|[->|(_ & _ & ->)]]]; [done|done| |]; simpl.
      * apply Forall_app. split; [done|].
        apply Forall_singleton. intros href ->%list_elem_of_singleton.
        by left.
      * apply Forall_app. split; [done|].
        repeat apply Forall_cons_2; try apply Forall_nil_2;
          by intros href ?%elem_of_nil.
    + destruct (settle_effect i o u)
        as [->|(m & evs & _ & _ & -> & Hevs)]; [done|]. simpl.
      apply Forall_app. split; [done|].
      destruct o as [data|error]; subst evs.
      * assert (checkoutUrl data ∈ checkout_urls ts) as Hd
          by (by apply (checkout_urls_elem ts i)).
        destruct (gtag u);
          repeat apply Forall_cons_2; try apply Forall_nil_2;
          intros href ->%list_elem_of_singleton; by right.
      * repeat apply Forall_cons_2; try apply Forall_nil_2;
          by intros href ?%elem_of_nil.
    + by destruct (close_popup_cases variant u) as [->|(_ & _ & ->)].
    + destruct (fire_callback_cases cb u)
        as [->|(Hh & href & -> & ->)]; [done|]. simpl.
      apply Forall_app. split; [done|].
      apply Forall_singleton. intros href' ->%list_elem_of_singleton.
      destruct (handed_out_destination _ _ Hh) as (e & He & Hd).
      by apply (proj1 (Forall_forall P (log u)) Hu e He).
  - unfold mount. rewrite exec_bind.
    rewrite outcome_effect_events, intent_effect_events, Hlog. simpl.
    apply Forall_app. split.
    + destruct (strict_eq_string _ _); [|done].
      destruct (logged_in w);
        repeat apply Forall_cons_2; try apply Forall_nil_2;
        by intros href ?%elem_of_nil.
    + destruct (truthy_string _); [|done].
      destruct (strict_eq_string _ _);
        repeat apply Forall_cons_2; try apply Forall_nil_2;
        by intros href ?%elem_of_nil.
Qed.

(** X10.  The purchase outcome is reported at most once in a visit,
    by the mount.  Over any visit of a fresh instance the analytics
    events are those of the mount, at most one and then
    purchase_complete or purchase_canceled, followed by begin_checkout
    events only, each of category "course" and with a callback. *)
Theorem visit_analytics_discipline (variant : Variant) (ts : list Task)
    (w : World) :
  log w = [] →
  ∃ rest,
    analytics_of (log (exec (visit_ variant ts) w))
    = analytics_of (log (exec mount_ w)) ++ rest
    ∧ (length (analytics_of (log (exec mount_ w))) ≤ 1)%nat
    ∧ Forall (λ e, e = purchase_complete ∨ e = purchase_canceled)
        (analytics_of (log (exec mount_ w)))
    ∧ Forall (λ e, action e = "sql_begin_checkout"
                   ∧ category e = "course"
                   ∧ is_Some (callback e)) rest.
Proof.
  intros Hlog.
  set (ok := λ e : AnalyticsEvent,
         action e = "sql_begin_checkout" ∧ category e = "course"
         ∧ is_Some (callback e)).
  set (A0 := analytics_of (log (exec mount_ w))).
  assert (∃ rest, analytics_of (log (exec (visit_ variant ts) w)) = A0 ++ rest
                  ∧ Forall ok rest) as (rest & Hrest & Hok).
  { unfold visit. rewrite exec_bind.
    apply (run_tasks_invariant
             (λ u, ∃ rest, analytics_of (log u) = A0 ++ rest ∧ Forall ok rest)).
    - intros t u _ (rest & Hu & Hok). destruct t as [how|i o| |cb]; simpl.
      + destruct (activate_effect variant how u)
          as [->|[[_ ->]|[->|(_ & _ & ->)]]]; simpl;
          rewrite ?analytics_of_app; simpl; rewrite ?app_nil_r; eauto.
      + destruct (settle_effect i o u)
          as [->|(m & evs & _ & _ & -> & Hevs)]; [eauto|]. simpl.
        rewrite analytics_of_app, Hu.
        destruct o as [data|error]; subst evs.
        * destruct (gtag u); simpl; rewrite ?app_nil_r; [|eauto].
          eexists. rewrite <- app_assoc. split; [reflexivity|].
          apply Forall_app. split; [done|]. apply Forall_singleton.
          unfold ok. simpl. eauto.
        * simpl. rewrite app_nil_r. eauto.
      + destruct (close_popup_cases variant u) as [->|(_ & _ & ->)]; eauto.
      + destruct (fire_callback_cases cb u)
          as [->|(_ & href & _ & ->)]; [eauto|]. simpl.
        rewrite analytics_of_app. simpl. rewrite app_nil_r. eauto.
    - exists []. by rewrite app_nil_r. }
  exists rest. split; [done|]. split; [|split; [|done]].
  all: unfold A0, mount; rewrite exec_bind.
  all: rewrite outcome_effect_events, intent_effect_events, Hlog; simpl.
  all: rewrite analytics_of_app.
  all: assert (analytics_of
                 (if strict_eq_string
                       (url_params w !! COURSE_PURCHASE_PARAM) "1"
                  then EvDeleteUrlParam COURSE_PURCHASE_PARAM
                       :: (if logged_in w
                           then [EvToastLoading "Creating checkout session...";
                                 EvHttpPost "/v1-create-checkout-session"
                                   request_]
                           else [])
                  else []) = []) as ->
         by (destruct (strict_eq_string _ _); [|done];
             by destruct (logged_in w)).
  all: simpl; destruct (truthy_string _); simpl.
  - lia.
  - lia.
  - apply Forall_singleton. destruct (strict_eq_string _ _); eauto.
  - done.
Qed.

(** X13.  Without pricing data the button is dead, also when nothing
    is loading any more.  On a fresh instance whose pricing query has no
    data and whose address does not ask for a purchase, no task of a
    visit issues a command or sends anything out after the mount, and
    the button is still disabled at the end: an enrolled user cannot
    reach the course through it either. *)
Theorem missing_pricing_disables_button (variant : Variant)
    (ts : list Task) (w : World) :
  coursePricing w = None →
  url_params w !! COURSE_PURCHASE_PARAM ≠ Some "1" →
  mutations w = [] →
  log w = [] →
  mutations (exec (visit_ variant ts) w) = []
  ∧ log (exec (visit_ variant ts) w) = log (exec mount_ w)
  ∧ disabled (button (render variant (exec (visit_ variant ts) w))) = true.
Proof.
  intros Hnone Hother Hnil Hlog.
  set (L := log (exec mount_ w)).
  assert (exec mount_ w = exec outcome_effect w) as Hmount.
  { unfold mount. rewrite exec_bind. by rewrite intent_effect_idle. }
  assert (coursePricing (exec mount_ w) = None
          ∧ mutations (exec mount_ w) = []
          ∧ ∀ cb, handed_out cb L = false) as (Hp0 & Hm0 & Hcb).
  { unfold L. rewrite Hmount, outcome_effect_mutations, outcome_effect_events.
    rewrite Hlog. simpl. split; [|split; [done|]].
    - run. destruct (truthy_string _); simpl; [|done].
      by destruct (strict_eq_string _ _).
    - intros cb. destruct (truthy_string _); [|done].
      by destruct (strict_eq_string _ _). }
  set (I := λ u : World,
         coursePricing u = None ∧ mutations u = [] ∧ log u = L).
  assert (I (exec (visit_ variant ts) w)) as (Hp & Hm & Hl).
  { unfold visit. rewrite exec_bind. apply (run_tasks_invariant I); [|done].
    intros t u _ (Hp & Hm & Hl).
    assert (isLoadingPricing u = true) as Hload.
    { unfold isLoadingPricing. rewrite Hp. simpl.
      by rewrite orb_true_r. }
    destruct t as [how|i o| |cb]; simpl.
    - destruct (activate_cases variant how u) as [->|[Hno _]];
        [done|congruence].
    - destruct (settle_cases i o u) as [->|(m & Hi & _)]; [done|].
      by rewrite Hm in Hi.
    - by destruct (close_popup_cases variant u) as [->|(_ & _ & ->)].
    - destruct (fire_callback_cases cb u) as [->|(Hh & _)]; [done|].
      by rewrite Hl, Hcb in Hh. }
  split; [done|]. split; [done|].
  rewrite button_disabled. unfold isLoadingPricing. rewrite Hp. simpl.
  by rewrite orb_true_r.
Qed.

(** ** The two mount effects, in either order *)

Lemma outcome_effect_shape (u : World) :
  exec outcome_effect u
  = if truthy_string (url_params u !! COURSE_PURCHASE_SUCCESS_PARAM)
    then set_log
           (λ l, l ++ [EvFireEvent
                         (if strict_eq_string
                               (url_params u !! COURSE_PURCHASE_SUCCESS_PARAM)
                               "1"
                          then purchase_complete else purchase_canceled);
                       EvDeleteUrlParam COURSE_PURCHASE_SUCCESS_PARAM])
           (set_url_params (delete COURSE_PURCHASE_SUCCESS_PARAM) u)
    else u.
Proof.
  run. destruct (truthy_string _); simpl; [|done].
  destruct (strict_eq_string _ _); simpl;
    unfold set_log, set_url_params; simpl; f_equal; by rewrite <- app_assoc.
Qed.

Lemma intent_effect_shape (u : World) :
  exec intent_effect u
  = if strict_eq_string (url_params u !! COURSE_PURCHASE_PARAM) "1"
    then set_log
           (λ l, l ++ EvDeleteUrlParam COURSE_PURCHASE_PARAM
                      :: (if logged_in u
                          then [EvToastLoading "Creating checkout session...";
                                EvHttpPost "/v1-create-checkout-session"
                                  request_]
                          else []))
           (set_mutations
              (λ ms, ms ++ (if logged_in u
                            then [mkMutation request_ Pending] else []))
              (set_url_params (delete COURSE_PURCHASE_PARAM) u))
    else u.
Proof.
  run. destruct (strict_eq_string _ _); simpl; [|done].
  destruct (logged_in u); simpl;
    unfold set_log, set_mutations, set_url_params; simpl; f_equal;
    by rewrite <- ?app_assoc, ?app_nil_r.
Qed.

(** X8.  The two mount effects do not interfere.  When the two
    parameters have different names, running the outcome effect before
    the intent effect leaves the same address, the same commands and
    the same component state as the order of the source, and sends out
    the same calls, in another order. *)
Theorem mount_effects_commute (w : World) :
  COURSE_PURCHASE_PARAM ≠ COURSE_PURCHASE_SUCCESS_PARAM →
  let a := exec (intent_effect;; outcome_effect) w in
  let b := exec (outcome_effect;; intent_effect) w in
  set_log (λ _, []) a = set_log (λ _, []) b ∧ log a ≡ₚ log b.
Proof.
  intros Hne a b. unfold a, b. rewrite !exec_bind.
  rewrite (outcome_effect_shape (exec intent_effect w)).
  rewrite (intent_effect_shape (exec outcome_effect w)).
  rewrite intent_effect_url_other by done.
  rewrite outcome_effect_url_other by done.
  rewrite (intent_effect_shape w), (outcome_effect_shape w).
  destruct (strict_eq_string (url_params w !! COURSE_PURCHASE_PARAM) "1"),
    (truthy_string (url_params w !! COURSE_PURCHASE_SUCCESS_PARAM));
    simpl; try done.
  split.
  - unfold set_log, set_mutations, set_url_params. simpl. f_equal.
    apply delete_delete.
  - rewrite <- !app_assoc. apply Permutation_app_head.
    apply Permutation_app_comm.
Qed.

Lemma run_task_deletes_nothing (variant : Variant) (t : Task) (w : World)
    (name : string) :
  count_events (is_deleteUrlParam name) (log (exec (run_task_ variant t) w))
  = count_events (is_deleteUrlParam name) (log w).
Proof.
  destruct t as [how|i o| |cb]; simpl.
  - destruct (activate_effect variant how w)
      as [->|[[_ ->]|[->|(_ & _ & ->)]]]; [done|done| |]; simpl;
      rewrite count_events_app; simpl; lia.
  - destruct (settle_effect i o w)
      as [->|(m & evs & _ & _ & -> & Hevs)]; [done|]. simpl.
    rewrite count_events_app.
    destruct o as [data|error]; subst evs; [destruct (gtag w)|];
      simpl; lia.
  - by destruct (close_popup_cases variant w) as [->|(_ & _ & ->)].
  - destruct (fire_callback_cases cb w)
      as [->|(_ & href & _ & ->)]; [done|]. simpl.
    rewrite count_events_app. simpl. lia.
Qed.

(** X14.  Over any visit of a fresh instance, [deleteUrlParam] is
    called at most once for any parameter name: only the mount calls
    it, once for a parameter it interprets, and no later task does,
    also when the two parameters happen to bear the same name. *)
Theorem visit_deletes_each_parameter_at_most_once (variant : Variant)
    (ts : list Task) (w : World) (name : string) :
  log w = [] →
  (count_events (is_deleteUrlParam name) (log (exec (visit_ variant ts) w))
   ≤ 1)%nat.
Proof.
  intros Hlog.
  assert (count_events (is_deleteUrlParam name)
            (log (exec (visit_ variant ts) w))
          = count_events (is_deleteUrlParam name) (log (exec mount_ w)))
    as ->.
  { unfold visit. rewrite exec_bind.
    apply (run_tasks_invariant
             (λ u, count_events (is_deleteUrlParam name) (log u)
                   = count_events (is_deleteUrlParam name)
                       (log (exec mount_ w)))); [|done].
    intros t u _ <-. apply run_task_deletes_nothing. }
  unfold mount. rewrite exec_bind, outcome_effect_events.
  rewrite count_events_app, intent_effect_events, Hlog. simpl.
  destruct (strict_eq_string (url_params w !! COURSE_PURCHASE_PARAM) "1")
    eqn:Hone.
  - assert (count_events (is_deleteUrlParam name)
              (EvDeleteUrlParam COURSE_PURCHASE_PARAM
               :: (if logged_in w
                   then [EvToastLoading "Creating checkout session...";
                         EvHttpPost "/v1-create-checkout-session" request_]
                   else []))
            = if String.eqb COURSE_PURCHASE_PARAM name then 1%nat else 0%nat)
      as -> by (simpl; destruct (logged_in w); simpl; lia).
    destruct (truthy_string _) eqn:Htruthy; simpl;
      [|destruct (String.eqb _ _); lia].
    destruct (String.eqb_spec COURSE_PURCHASE_PARAM name) as [Hp|Hp];
      destruct (String.eqb_spec COURSE_PURCHASE_SUCCESS_PARAM name)
        as [Hs|Hs]; try lia.
    exfalso. revert Htruthy.
    rewrite intent_effect_shape, Hone, Hs, <- Hp. simpl.
    by rewrite lookup_delete_eq.
  - simpl. destruct (truthy_string _); simpl; [|lia].
    destruct (String.eqb _ _); lia.
Qed.

End Visits.

(** ** The visit properties on sample pages *)

Lemma visit_single_flight_witness :
  (pending_count
     (mutations
        (exec (visit "t" "success" "https://app.example" main
                 [Activates ByPointer; Activates ByPointer;
                  CommandSettles 0 (Rejected None); Activates ByPointer])
           (fresh_page [("t", "1")] true true))) ≤ 1)%nat.
Proof.
  apply visit_single_flight; [discriminate| |reflexivity].
  intros how Hin. repeat (apply elem_of_cons in Hin as [Hin|Hin];
    [by inversion Hin|]). by apply elem_of_nil in Hin.
Defined.

Lemma anonymous_visit_sends_nothing_witness :
  mutations
    (exec (visit "t" "success" "https://app.example" floating
             [Activates ByKeyboard; PopupCloses; Activates ByPointer])
       (fresh_page [("t", "1")] false true)) = [].
Proof.
  apply (anonymous_visit_sends_nothing "t" "success" "https://app.example"
           floating _ (fresh_page [("t", "1")] false true));
    reflexivity.
Defined.

Lemma visit_url_frame_witness :
  url_params
    (exec (visit "t" "success" "https://app.example" main
             [Activates ByPointer])
       (fresh_page [("t", "1"); ("utm_source", "mail")] true true))
  !! "utm_source" = Some "mail".
Proof.
  rewrite (proj2 (visit_url_frame "t" "success" "https://app.example" main
                    [Activates ByPointer]
                    (fresh_page [("t", "1"); ("utm_source", "mail")]
                       true true)) "utm_source");
    [reflexivity|discriminate|discriminate].
Defined.

Lemma logged_out_click_popup_on_screen_witness :
  login_popup
    (render top_nav
       (exec (activate "success" "https://app.example" top_nav ByPointer)
          (fresh_page [] false true))) = false
  ∧ login_popup
      (render main
         (exec (activate "success" "https://app.example" main ByPointer)
            (fresh_page [] false true))) = true.
Proof.
  split.
  - apply (logged_out_click_popup_on_screen "success" "https://app.example"
             top_nav ByPointer (fresh_page [] false true)); reflexivity.
  - apply (logged_out_click_popup_on_screen "success" "https://app.example"
             main ByPointer (fresh_page [] false true)); reflexivity.
Defined.

Lemma popup_open_close_round_trip_witness :
  exec (close_popup floating)
    (exec (activate "success" "https://app.example" floating ByKeyboard)
       (fresh_page [] false true))
  = fresh_page [] false true.
Proof.
  apply popup_open_close_round_trip; [discriminate|reflexivity..].
Defined.

Lemma caption_matches_click_witness :
  emitted (activate "success" "https://app.example" main ByPointer)
    (enrolled_page [])
  = [EvLocationHref "https://app.example/sql"]
  ∧ mutations
      (exec (activate "success" "https://app.example" floating ByPointer)
         (fresh_page [] true true))
    = [mkMutation (checkout_request "success") Pending].
Proof.
  split.
  - apply (proj1 (caption_matches_click "success" "https://app.example"
                    main ByPointer (enrolled_page [])
                    ltac:(discriminate) eq_refl eq_refl eq_refl)).
    reflexivity.
  - apply (proj2 (caption_matches_click "success" "https://app.example"
                    floating ByPointer (fresh_page [] true true)
                    ltac:(discriminate) eq_refl eq_refl eq_refl)).
    discriminate.
Defined.

Lemma mount_ignores_enrollment_witness :
  mutations (exec (mount "t" "success") (enrolled_page [("t", "1")]))
  = [mkMutation (checkout_request "success") Pending]
  ∧ emitted (activate "success" "https://app.example" main ByPointer)
      (enrolled_page [("t", "1")])
    = [EvLocationHref "https://app.example/sql"].
Proof.
  destruct (mount_ignores_enrollment "t" "success" "https://app.example"
              main ByPointer (enrolled_page [("t", "1")])
              (mkTimestamp 1735689600000) eq_refl eq_refl eq_refl)
    as [[Hm _] Hclick].
  split; [exact Hm|]. by apply Hclick.
Defined.

Lemma mount_effects_commute_witness :
  log (exec (purchase_intent_effect "t" "success";;
             purchase_outcome_effect "success")
         (fresh_page [("t", "1"); ("success", "1")] true true))
  ≡ₚ log (exec (purchase_outcome_effect "success";;
                purchase_intent_effect "t" "success")
            (fresh_page [("t", "1"); ("success", "1")] true true)).
Proof.
  apply (mount_effects_commute "t" "success"
           (fresh_page [("t", "1"); ("success", "1")] true true)).
  discriminate.
Defined.

Lemma succeeded_command_unguards_witness :
  let w := exec (initPurchase "success") (fresh_page [] true true) in
  mutations
    (exec (activate "success" "https://app.example" main ByPointer)
       (exec (settle 0 (Resolved {| checkoutUrl := "https://pay.example/cs_1" |}))
          w))
  = [mkMutation (checkout_request "success") Succeeded;
     mkMutation (checkout_request "success") Pending].
Proof.
  intros w.
  apply (succeeded_command_unguards "success" "https://app.example" main
           ByPointer w [] (checkout_request "success")
           {| checkoutUrl := "https://pay.example/cs_1" |});
    reflexivity.
Defined.

Lemma visit_analytics_discipline_witness :
  ∃ rest,
    analytics_of
      (log (exec (visit "t" "success" "https://app.example" main
                    [Activates ByPointer;
                     CommandSettles 0
                       (Resolved {| checkoutUrl := "https://pay.example/cs_1" |})])
              (fresh_page [("success", "1")] true true)))
    = [purchase_complete] ++ rest.
Proof.
  destruct (visit_analytics_discipline "t" "success" "https://app.example"
              main
              [Activates ByPointer;
               CommandSettles 0
                 (Resolved {| checkoutUrl := "https://pay.example/cs_1" |})]
              (fresh_page [("success", "1")] true true) eq_refl)
    as (rest & Heq & _).
  exists rest. exact Heq.
Defined.

Lemma visit_destinations_witness :
  Forall (λ e, ∀ href, href ∈ destinations e →
                 href = "https://app.example/sql"
                 ∨ href ∈ ["https://pay.example/cs_1"])
    (log (exec (visit "t" "success" "https://app.example" main
                  [CommandSettles 0
                     (Resolved {| checkoutUrl := "https://pay.example/cs_1" |});
                   CallbackFires (Redirect "https://pay.example/cs_1")])
            (fresh_page [("t", "1")] true true))).
Proof.
  apply (visit_destinations "t" "success" "https://app.example" main
           [CommandSettles 0
              (Resolved {| checkoutUrl := "https://pay.example/cs_1" |});
            CallbackFires (Redirect "https://pay.example/cs_1")]
           (fresh_page [("t", "1")] true true)).
  reflexivity.
Defined.

Lemma visit_requests_match_commands_witness :
  let w' := exec (visit "t" "success" "https://app.example" top_nav
                    [Activates ByPointer;
                     CommandSettles 0 (Rejected None)])
              (fresh_page [("t", "1")] true true) in
  count_events is_httpPost (log w') = length (mutations w').
Proof.
  intros w'.
  apply (visit_requests_match_commands "t" "success" "https://app.example"
           top_nav
           [Activates ByPointer; CommandSettles 0 (Rejected None)]
           (fresh_page [("t", "1")] true true));
    reflexivity.
Defined.

Lemma missing_pricing_disables_button_witness :
  let w := {| url_params := ∅; logged_in := true; gtag := true;
              isLoadingCourse := false; coursePricing := None;
              isLoadingCourseProgress := false;
              courseProgress :=
                Some {| enrolledAt := Some (mkTimestamp 1735689600000) |};
              isLoginPopupOpen := false; mutations := []; log := [] |} in
  log (exec (visit "t" "success" "https://app.example" main
               [Activates ByPointer; Activates ByKeyboard]) w) = [].
Proof.
  intros w.
  destruct (missing_pricing_disables_button "t" "success"
              "https://app.example" main
              [Activates ByPointer; Activates ByKeyboard] w)
    as (_ & Hl & _); [reflexivity|discriminate|reflexivity..|].
  rewrite Hl. reflexivity.
Defined.

Lemma visit_deletes_each_parameter_at_most_once_witness :
  (count_events (is_deleteUrlParam "x")
     (log (exec (visit "x" "x" "https://app.example" main
                   [Activates ByPointer])
             (fresh_page [("x", "1")] true true))) ≤ 1)%nat.
Proof.
  apply visit_deletes_each_parameter_at_most_once. reflexivity.
Defined.
